(** * RPG-GO skills: event-callback registry, dispatch and level pricing

    A shallow embedding of [addons/source-python/plugins/rpg/skill.py].

    The module relies on a handful of Python mechanisms (a metaclass run at
    class creation, [collections.defaultdict], attribute lookup along the
    method resolution order, bound methods, exceptions).  They are embedded
    as far as the module uses them:

    - objects with identity (classes, instances, the [defaultdict] of a
      class, the lists stored in it, [TickRepeat] handles) live in a heap
      addressed by locations; allocation appends to the heap;
    - a class namespace and keyword arguments are insertion-ordered
      association lists (the order of a class body);
    - Python calls are evaluated by a [caller]; the functions of the module
      take the caller that evaluates their own nested calls, and [py_call]
      ties the knot with a recursion limit, as the interpreter does;
    - every call the module makes to a callable value is recorded in a
      call log, kept out of reach of the called code, so that theorems can
      speak about which callbacks ran, in which order, with which
      arguments.

    Where the embedding stops:

    - values are [None], integers, strings, functions, bound methods,
      descriptor objects and references to heap objects.  Functions are
      values, not heap objects: decorating one yields the function with
      its new [_events], where Python changes it in place.  Of the values
      only functions (and methods bound to them) carry [_events]; an
      object referenced from a class body could carry [_events] or
      creation hooks of its own, and the theorems that say what the whole
      registry of a class holds are stated for bodies without object
      references ([plain_body]);
    - attribute reads are those the module performs ([self.level],
      [self._event_callbacks], [self._tick], [cls._event_callbacks]): the
      attributes of the instance, then its class along the resolution
      order; the two properties are read by running their getters,
      [Skill.upgrade_cost] and [Skill.downgrade_refund];
    - attribute writes are those the module performs ([self.level],
      [self.tick_repeat], [cls._event_callbacks]): they bind the name on
      the object itself.  A class that defines a data descriptor under
      the name written (a read-only [level] property, say) is outside
      this; theorems about the constructor of [Skill] exclude it with
      [assignable];
    - [type.__new__] builds the class object and its namespace; the hooks
      it runs on the way ([__init_subclass__] of a base, [__set_name__] of
      a value) and the layout names it interprets ([__slots__],
      [__classcell__]) are not followed, and theorems that depend on them
      are stated for class statements without them
      ([ordinary_statement]);
    - calling a class allocates the instance and runs the [__init__] its
      class resolves to; classes that take over creation or attribute
      access ([__new__], [__setattr__], [__getattribute__]) are outside
      this, and theorems about construction exclude them
      ([ordinary_instances]);
    - membership and indexing are those of the [defaultdict] the metaclass
      creates, and raise [TypeError] on anything else;
    - a [for] loop over a list object reads the list as it is at each
      round, so items added or removed by the loop body count;
    - a class body is an ordered namespace, as [attrs] is since Python 3.6:
      an association list in which a name occurs once;
    - exceptions carry their class and an abbreviated message;
    - the code of user functions is any total function on heaps. *)

From Stdlib Require Import ZArith PArith Ascii String List Bool Lia.
From stdpp Require Import base option list strings.
Import ListNotations.

Local Open Scope string_scope.
Local Open Scope list_scope.

(** ** Values and objects *)

(** Heap locations. *)
Abbreviation loc := nat (only parsing).

(** An insertion-ordered dictionary with string keys. *)
Abbreviation odict V := (list (string * V)) (only parsing).

Definition od_lookup {V} (k : string) (d : odict V) : option V :=
  snd <$> find (fun kv => String.eqb k (fst kv)) d.

Fixpoint od_set {V} (k : string) (v : V) (d : odict V) : odict V :=
  match d with
  | [] => [(k, v)]
  | (k', v') :: d' =>
      if String.eqb k k' then (k', v) :: d' else (k', v') :: od_set k v d'
  end.

Definition od_contains {V} (k : string) (d : odict V) : bool :=
  match od_lookup k d with Some _ => true | None => false end.

Definition od_values {V} (d : odict V) : list V := map snd d.

(** The code a function object runs.  The methods written in skill.py have
    a constructor each; [Code_user n] is the body of the n-th function
    written by a skill author.  [TickRepeatSkill.__init__] uses [super()]
    and so carries its [__class__] cell: the location of the class object
    it was defined in.  [Code_object_init] is the built-in
    [object.__init__]. *)
Inductive code :=
| Code_Skill_init
| Code_Skill_upgrade_cost
| Code_Skill_downgrade_refund
| Code_Skill_execute_callbacks
| Code_TickRepeatSkill_init (cell : loc)
| Code_TickRepeatSkill_tick
| Code_object_init
| Code_user (n : nat).

(** A function object: its name, its code, and its [_events] attribute
    ([None] when the attribute is absent). *)
Record func := mk_func {
  fn_name : string;
  fn_code : code;
  fn_events : option (list string)
}.

Inductive value :=
| VNone
| VInt (z : Z)
| VStr (s : string)
| VFunc (f : func)
| VBound (self : loc) (f : func)        (* bound method *)
| VProperty (fget : func)               (* property(fget) *)
| VClassProperty (getter : string)      (* rpg.utils.ClassProperty(getter) *)
| VRef (l : loc).                       (* reference to a heap object *)

Abbreviation kwargs := (list (string * value)) (only parsing).

Record class_obj := mk_class {
  cls_name : string;                    (* __name__ *)
  cls_qualname : string;                (* __qualname__ *)
  cls_bases : list loc;
  cls_mro : list loc;
  cls_dict : odict value
}.

Inductive obj :=
| OClass (c : class_obj)
| OInstance (cls : loc) (dict : odict value)
| ODefaultDict (entries : odict value)  (* collections.defaultdict(list) *)
| OList (items : list value)
| OTickRepeat (callback : value).       (* listeners.tick.TickRepeat *)

Abbreviation heap := (list obj) (only parsing).

Inductive exn :=
| AttributeError (name : string)
| TypeError (msg : string)
| NotImplementedError (msg : string)
| RecursionError
| Raised (e : value).                   (* an exception raised by user code *)

Inductive outcome (A : Type) :=
| Normal (a : A)
| Raise (e : exn).
Arguments Normal {A} a.
Arguments Raise {A} e.

(** ** The evaluation monad *)

(** One call made to a callable value: callee, positional arguments,
    keyword arguments. *)
Record invocation := mk_inv {
  inv_callee : value;
  inv_args : list value;
  inv_kwargs : kwargs
}.

(** A computation runs on a heap and yields an outcome, the new heap and
    the calls it made. *)
Definition M (A : Type) := heap -> outcome A * heap * list invocation.

(** What evaluates a Python call.  It sees the heap, not the call log. *)
Definition caller := value -> list value -> kwargs -> heap -> outcome value * heap.

Definition ret {A} (a : A) : M A := fun w => (Normal a, w, []).

Definition raise {A} (e : exn) : M A := fun w => (Raise e, w, []).

Definition bind {A B} (m : M A) (k : A -> M B) : M B :=
  fun w =>
    match m w with
    | (Normal a, w1, log1) =>
        match k a w1 with
        | (r, w2, log2) => (r, w2, log1 ++ log2)
        end
    | (Raise e, w1, log1) => (Raise e, w1, log1)
    end.

Notation "'do' x <- c1 ; c2" := (bind c1 (fun x => c2))
  (at level 10, x name, c1 at level 100, c2 at level 200).
Notation "c1 ;; c2" := (bind c1 (fun _ => c2))
  (at level 100, c2 at level 200, right associativity).

(** [for x in xs: body x] *)
Fixpoint for_each {A} (xs : list A) (body : A -> M unit) : M unit :=
  match xs with
  | [] => ret tt
  | x :: xs' => body x ;; for_each xs' body
  end.

(** Calling a value: the call is evaluated by [call] and logged. *)
Definition invoke (call : caller) (f : value) (args : list value) (kw : kwargs)
  : M value :=
  fun w =>
    match call f args kw w with
    | (r, w') => (r, w', [mk_inv f args kw])
    end.

Definition out {A} (r : outcome A * heap * list invocation) : outcome A := fst (fst r).
Definition final {A} (r : outcome A * heap * list invocation) : heap := snd (fst r).
Definition calls {A} (r : outcome A * heap * list invocation) : list invocation := snd r.

(** ** Heap primitives *)

Definition alloc (o : obj) : M loc := fun w => (Normal (length w), w ++ [o], []).

Definition get_heap : M heap := fun w => (Normal w, w, []).

Definition store (l : loc) (o : obj) : M unit := fun w => (Normal tt, <[l := o]> w, []).

(** ** Classes and the method resolution order *)

Definition in_tail (h : loc) (s : list loc) : bool :=
  match s with
  | [] => false
  | _ :: t => existsb (Nat.eqb h) t
  end.

(** The first head of [cands] that occurs in the tail of no sequence. *)
Fixpoint c3_pick (cands seqs : list (list loc)) : option loc :=
  match cands with
  | [] => None
  | [] :: rest => c3_pick rest seqs
  | (h :: _) :: rest =>
      if existsb (in_tail h) seqs then c3_pick rest seqs else Some h
  end.

Definition c3_drop (h : loc) (s : list loc) : list loc :=
  match s with
  | [] => []
  | x :: t => if Nat.eqb x h then t else s
  end.

Definition nonempty (s : list loc) : bool :=
  match s with [] => false | _ => true end.

(** The merge of the C3 linearisation; [None] when no consistent order
    exists. *)
Fixpoint c3_merge (fuel : nat) (seqs : list (list loc)) : option (list loc) :=
  match List.filter nonempty seqs with
  | [] => Some []
  | live =>
      match fuel with
      | O => None
      | S fuel' =>
          match c3_pick live live with
          | None => None
          | Some h => cons h <$> c3_merge fuel' (map (c3_drop h) live)
          end
      end
  end.

Definition c3_linearise (seqs : list (list loc)) : option (list loc) :=
  c3_merge (length (concat seqs)) seqs.

Definition class_at (w : heap) (c : loc) : option class_obj :=
  match w !! c with
  | Some (OClass k) => Some k
  | _ => None
  end.

Definition class_dict_lookup (w : heap) (c : loc) (name : string) : option value :=
  match class_at w c with
  | Some k => od_lookup name (cls_dict k)
  | None => None
  end.

(** [object.__init__], which every resolution order ends with. *)
Definition object_init_fn : func := mk_func "__init__" Code_object_init None.

Definition object_dict : odict value := [("__init__", VFunc object_init_fn)].

(** The first class of [mro] whose own namespace binds [name]; [object]
    closes every resolution order. *)
Fixpoint lookup_along (w : heap) (mro : list loc) (name : string) : option value :=
  match mro with
  | [] => od_lookup name object_dict
  | c :: rest =>
      match class_dict_lookup w c name with
      | Some v => Some v
      | None => lookup_along w rest name
      end
  end.

Definition mro_lookup (w : heap) (c : loc) (name : string) : option value :=
  match class_at w c with
  | Some k => lookup_along w (cls_mro k) name
  | None => None
  end.

(** [super(cell, self).name]: the lookup starts after [cell] in the
    resolution order of the class of [self]. *)
Fixpoint mro_after (cell : loc) (mro : list loc) : list loc :=
  match mro with
  | [] => []
  | c :: rest => if Nat.eqb c cell then rest else mro_after cell rest
  end.

Definition super_lookup (w : heap) (c cell : loc) (name : string) : option value :=
  match class_at w c with
  | Some k => lookup_along w (mro_after cell (cls_mro k)) name
  | None => None
  end.

(** The qualified name of a class: the [__qualname__] its body carries
    (the compiler puts it there: the dotted path of a nested class), and
    the name of the class statement otherwise. *)
Definition class_qualname (name : string) (attrs : odict value) : string :=
  match od_lookup "__qualname__" attrs with
  | Some (VStr q) => q
  | _ => name
  end.

(** The namespace [type.__new__] gives the class: a copy of [attrs]
    without [__qualname__], which becomes the qualified name, and with
    [__doc__] bound to [None] when the body has no docstring.  The other
    special names Python keeps there ([__module__], [__dict__],
    [__weakref__]) are left out. *)
Definition class_namespace (attrs : odict value) : odict value :=
  let ns := List.filter (fun kv => negb (String.eqb "__qualname__" (fst kv))) attrs in
  if od_contains "__doc__" ns then ns else ns ++ [("__doc__", VNone)].

(** [type.__new__(mcs, name, bases, attrs)]: the class object, with its
    resolution order, its qualified name and its namespace. *)
Definition type_new (name : string) (bases : list loc) (attrs : odict value) : M loc :=
  fun w =>
    match mapM (fun b => cls_mro <$> class_at w b) bases with
    | None => (Raise (TypeError "bases must be types"), w, [])
    | Some mros =>
        match c3_linearise (mros ++ [bases]) with
        | None => (Raise (TypeError "Cannot create a consistent method resolution order (MRO)"), w, [])
        | Some tail =>
            alloc (OClass (mk_class name (class_qualname name attrs) bases
                             (length w :: tail) (class_namespace attrs))) w
        end
    end.

(** [cls.name], read on a class object. *)
Definition getattr_class (c : loc) (name : string) : M value :=
  fun w =>
    match mro_lookup w c name with
    | Some v => (Normal v, w, [])
    | None => (Raise (AttributeError name), w, [])
    end.

(** [cls.name = v], written on a class object. *)
Definition setattr_class (c : loc) (name : string) (v : value) : M unit :=
  fun w =>
    match class_at w c with
    | Some k =>
        store c (OClass (mk_class (cls_name k) (cls_qualname k) (cls_bases k)
                                  (cls_mro k) (od_set name v (cls_dict k)))) w
    | None => (Raise (TypeError "not a class"), w, [])
    end.

(** ** Instances *)

(** [self.name]: the instance's own attributes, then its class along the
    resolution order; a function found on the class is bound to [self]. *)
Definition getattr (self : loc) (name : string) : M value :=
  fun w =>
    match w !! self with
    | Some (OInstance c d) =>
        match od_lookup name d with
        | Some v => (Normal v, w, [])
        | None =>
            match mro_lookup w c name with
            | Some (VFunc f) => (Normal (VBound self f), w, [])
            | Some v => (Normal v, w, [])
            | None => (Raise (AttributeError name), w, [])
            end
        end
    | _ => (Raise (AttributeError name), w, [])
    end.

(** [self.name = v], for a name under which the class of [self] defines
    no data descriptor ([assignable] below): the name is bound on the
    instance. *)
Definition setattr (self : loc) (name : string) (v : value) : M unit :=
  fun w =>
    match w !! self with
    | Some (OInstance c d) => store self (OInstance c (od_set name v d)) w
    | _ => (Raise (AttributeError name), w, [])
    end.

(** ** defaultdict(list) and list *)

(** [collections.defaultdict(list)] *)
Definition new_defaultdict : M value :=
  do d <- alloc (ODefaultDict []); ret (VRef d).

(** [key in d] : membership never inserts. *)
Definition dd_contains (d : value) (key : string) : M bool :=
  fun w =>
    match d with
    | VRef r =>
        match w !! r with
        | Some (ODefaultDict es) => (Normal (od_contains key es), w, [])
        | _ => (Raise (TypeError "argument is not iterable"), w, [])
        end
    | _ => (Raise (TypeError "argument is not iterable"), w, [])
    end.

(** [d[key]] : a missing key is first bound to a new empty list. *)
Definition dd_getitem (d : value) (key : string) : M value :=
  fun w =>
    match d with
    | VRef r =>
        match w !! r with
        | Some (ODefaultDict es) =>
            match od_lookup key es with
            | Some v => (Normal v, w, [])
            | None =>
                (do l <- alloc (OList []);
                 store r (ODefaultDict (es ++ [(key, VRef l)])) ;;
                 ret (VRef l)) w
            end
        | _ => (Raise (TypeError "object is not subscriptable"), w, [])
        end
    | _ => (Raise (TypeError "object is not subscriptable"), w, [])
    end.

(** [l.append(x)] *)
Definition list_append (l : value) (x : value) : M unit :=
  fun w =>
    match l with
    | VRef r =>
        match w !! r with
        | Some (OList xs) => store r (OList (xs ++ [x])) w
        | _ => (Raise (AttributeError "append"), w, [])
        end
    | _ => (Raise (AttributeError "append"), w, [])
    end.

(** The items of a list object, as iteration reads them. *)
Definition list_items (l : value) : M (list value) :=
  fun w =>
    match l with
    | VRef r =>
        match w !! r with
        | Some (OList xs) => (Normal xs, w, [])
        | _ => (Raise (TypeError "object is not iterable"), w, [])
        end
    | _ => (Raise (TypeError "object is not iterable"), w, [])
    end.

(** At most [n] rounds of [step], each from the state the round before
    left; the first round that yields [None] ends them.  [Some s] is
    yielded when the rounds are used up in state [s]. *)
Definition and_then {St} (r : option St) (k : St -> M (option St)) : M (option St) :=
  match r with
  | Some s => k s
  | None => ret None
  end.

Fixpoint rounds {St} (n : positive) (step : St -> M (option St)) (s : St)
  : M (option St) :=
  match n with
  | xH => step s
  | xO p => do r <- rounds p step s; and_then r (rounds p step)
  | xI p =>
      do r <- step s;
      and_then r (fun s1 => do r1 <- rounds p step s1; and_then r1 (rounds p step))
  end.

(** [sys.maxsize]: no list holds more items, so no index into a list
    passes it. *)
Definition max_index : positive := 9223372036854775807%positive.

(** [for x in l: body x] over a list object.  The iterator keeps the list
    object and an index, not a copy of the items: each round reads the
    list as it then is, runs the body on the item at the index, and the
    loop ends once the index has reached the length.  The rounds granted
    are one for each item the list has when the loop starts, one to see
    the end, and [sys.maxsize] for items added on the way: they cannot run
    out on lists Python can hold. *)
Definition for_in_list (l : value) (body : value -> M unit) : M unit :=
  do xs <- list_items l;
  rounds (Pos.of_succ_nat (length xs) + max_index)
    (fun i =>
       do now <- list_items l;
       match now !! i with
       | Some x => body x ;; ret (Some (S i))
       | None => ret None
       end) 0 ;;
  ret tt.

(** ** Arithmetic on values *)

Fixpoint str_repeat (n : nat) (s : string) : string :=
  match n with
  | O => ""
  | S n' => s ++ str_repeat n' s
  end.

(** [a + b], on the operand types the prices can meet; the message of
    the [TypeError] is cut down to its head. *)
Definition py_add (a b : value) : M value :=
  match a, b with
  | VInt x, VInt y => ret (VInt (x + y))
  | VStr x, VStr y => ret (VStr (x ++ y))
  | _, _ => raise (TypeError "unsupported operand type(s) for +")
  end.

(** [a * b] *)
Definition py_mul (a b : value) : M value :=
  match a, b with
  | VInt x, VInt y => ret (VInt (x * y))
  | VStr s, VInt n | VInt n, VStr s => ret (VStr (str_repeat (Z.to_nat n) s))
  | _, _ => raise (TypeError "unsupported operand type(s) for *")
  end.

(** ** skill.py *)

(** [event_callback] applied to the event names and then to the callback:
    the decorator stores the tuple of names on the function, as its
    [_events], and returns the function.  Nothing is checked; no name at
    all is as good as any. *)
Definition event_callback (event_names : list string) (callback : func) : M func :=
  ret (mk_func (fn_name callback) (fn_code callback) (Some event_names)).

(** [hasattr(f, '_events')] and [f._events] in one: the names a value of a
    class body is tagged with.  A bound method forwards the attributes of
    its function.  Constants and descriptor objects have no [_events];
    what an object referenced from the body carries is not followed (see
    [plain_body]). *)
Definition get_events (f : value) : option (list string) :=
  match f with
  | VFunc fn | VBound _ fn => fn_events fn
  | _ => None
  end.

Module _SkillMeta.

(** [type.__init__], reached through [super().__init__(name, bases, attrs)]. *)
Definition type_init (cls : loc) (name : string) (bases : list loc)
    (attrs : odict value) : M unit :=
  ret tt.

(** [_SkillMeta.__init__(cls, name, bases, attrs)]: a new
    [defaultdict(list)] becomes [cls._event_callbacks]; every value of
    [attrs] that has [_events] is appended under each of its event names. *)
Definition __init__ (cls : loc) (name : string) (bases : list loc)
    (attrs : odict value) : M unit :=
  type_init cls name bases attrs ;;
  do d <- new_defaultdict;
  setattr_class cls "_event_callbacks" d ;;
  for_each (od_values attrs) (fun f =>
    match get_events f with
    | None => ret tt
    | Some events =>
        for_each events (fun event_name =>
          do ec <- getattr_class cls "_event_callbacks";
          do l <- dd_getitem ec event_name;
          list_append l f)
    end).

End _SkillMeta.

(** A class statement whose metaclass is [_SkillMeta]: the metaclass is
    called, [type.__new__] builds the class and [_SkillMeta.__init__]
    initialises it. *)
Definition define_class (name : string) (bases : list loc) (attrs : odict value)
  : M loc :=
  do cls <- type_new name bases attrs;
  _SkillMeta.__init__ cls name bases attrs ;;
  ret cls.

Module Skill.

(** [Skill.__init__(self, level=0)]: [self.level = level]. *)
Definition __init__ (self : loc) (level : value) : M value :=
  setattr self "level" level ;;
  ret VNone.

(** The getter of the property [upgrade_cost]: [(self.level + 1) * 5]. *)
Definition upgrade_cost (self : loc) : M value :=
  do level <- getattr self "level";
  do next <- py_add level (VInt 1);
  py_mul next (VInt 5).

(** The getter of the property [downgrade_refund]: [self.level * 4]. *)
Definition downgrade_refund (self : loc) : M value :=
  do level <- getattr self "level";
  py_mul level (VInt 4).

(** [Skill.execute_callbacks(self, event_name, **event_args)]: nothing
    when [event_name not in self._event_callbacks]; otherwise each callback
    of [self._event_callbacks[event_name]] is called with [self] and the
    event arguments, with no handler around the call. *)
Definition execute_callbacks (call : caller) (self : loc) (event_name : string)
    (event_args : kwargs) : M value :=
  do ec <- getattr self "_event_callbacks";
  do present <- dd_contains ec event_name;
  if negb present then ret VNone
  else
    do ec' <- getattr self "_event_callbacks";
    do l <- dd_getitem ec' event_name;
    for_in_list l (fun callback =>
      invoke call callback [VRef self] event_args ;; ret tt) ;;
    ret VNone.

End Skill.

(** Modelled from the spec: [listeners.tick.TickRepeat] belongs to
    Source.Python and is not among the sources.  Its constructor registers
    the callback and hands back the timer: it keeps the callback and does
    not call it. *)
Definition TickRepeat (callback : value) : M value :=
  do t <- alloc (OTickRepeat callback); ret (VRef t).

(** Modelled from the spec: the scheduler of Source.Python triggering a
    [TickRepeat]; it calls the callback the timer was given, without
    arguments. *)
Definition TickRepeat_fire (call : caller) (t : loc) : M value :=
  do w <- get_heap;
  match w !! t with
  | Some (OTickRepeat callback) => invoke call callback [] []
  | _ => raise (TypeError "not a TickRepeat")
  end.

(** [super().name] inside a method of the class at [cell]. *)
Definition getattr_super (cell self : loc) (name : string) : M value :=
  fun w =>
    match w !! self with
    | Some (OInstance c _) =>
        match super_lookup w c cell name with
        | Some (VFunc f) => (Normal (VBound self f), w, [])
        | Some v => (Normal v, w, [])
        | None => (Raise (AttributeError name), w, [])
        end
    | _ => (Raise (TypeError "super(type, obj): obj must be an instance"), w, [])
    end.

Module TickRepeatSkill.

(** [TickRepeatSkill.__init__(self, level=0)]: [super().__init__(level)],
    then [self.tick_repeat = TickRepeat(self._tick)]. *)
Definition __init__ (call : caller) (cell : loc) (self : loc) (level : value)
  : M value :=
  do super_init <- getattr_super cell self "__init__";
  invoke call super_init [level] [] ;;
  do tick <- getattr self "_tick";
  do t <- TickRepeat tick;
  setattr self "tick_repeat" t ;;
  ret VNone.

(** [TickRepeatSkill._tick(self, *args, **kwargs)] raises. *)
Definition _tick (self : loc) (args : list value) (kw : kwargs) : M value :=
  raise (NotImplementedError "_tick method not implemented by a TickRepeatSkill class.").

End TickRepeatSkill.

(** ** Calls *)

(** Calling a class: a new instance, initialised by the [__init__] its
    class resolves to. *)
Definition instantiate (call : caller) (cls : loc) (args : list value) (kw : kwargs)
  : M value :=
  do w <- get_heap;
  match mro_lookup w cls "__init__" with
  | None => raise (TypeError "object is not callable")
  | Some init =>
      do self <- alloc (OInstance cls []);
      do r <- invoke call init (VRef self :: args) kw;
      match r with
      | VNone => ret (VRef self)
      | _ => raise (TypeError "__init__() should return None")
      end
  end.

(** The parameters [(self, level=0)] of both constructors; [None] stands
    for the [TypeError] of a call that does not fit them. *)
Definition params_self_level (args : list value) (kw : kwargs)
  : option (loc * value) :=
  match args, kw with
  | [VRef self], [] => Some (self, VInt 0)
  | [VRef self; level], [] => Some (self, level)
  | [VRef self], [(name, level)] =>
      if String.eqb name "level" then Some (self, level) else None
  | _, _ => None
  end.

(** The parameters [(self, event_name, **event_args)] of
    [execute_callbacks]: both named parameters can be passed by position
    or by keyword, never both ways at once, and the keywords left over are
    the event data.  [None] stands for the [TypeError] of a call that does
    not fit. *)
Definition od_remove {V} (k : string) (d : odict V) : odict V :=
  List.filter (fun kv => negb (String.eqb k (fst kv))) d.

Definition params_execute_callbacks (args : list value) (kw : kwargs)
  : option (value * value * kwargs) :=
  match args with
  | [self; event_name] =>
      if od_contains "self" kw || od_contains "event_name" kw then None
      else Some (self, event_name, kw)
  | [self] =>
      if od_contains "self" kw then None
      else match od_lookup "event_name" kw with
           | Some event_name => Some (self, event_name, od_remove "event_name" kw)
           | None => None
           end
  | [] =>
      match od_lookup "self" kw, od_lookup "event_name" kw with
      | Some self, Some event_name =>
          Some (self, event_name, od_remove "self" (od_remove "event_name" kw))
      | _, _ => None
      end
  | _ => None
  end.

(** The code of user functions: it transforms the heap and cannot reach
    the call log. *)
Definition user_code := nat -> list value -> kwargs -> heap -> outcome value * heap.

Definition run_code (user : user_code) (call : caller) (c : code)
    (args : list value) (kw : kwargs) : M value :=
  match c with
  | Code_Skill_init =>
      match params_self_level args kw with
      | Some (self, level) => Skill.__init__ self level
      | None => raise (TypeError "__init__() arguments")
      end
  | Code_Skill_upgrade_cost =>
      match args, kw with
      | [VRef self], [] => Skill.upgrade_cost self
      | _, _ => raise (TypeError "upgrade_cost() arguments")
      end
  | Code_Skill_downgrade_refund =>
      match args, kw with
      | [VRef self], [] => Skill.downgrade_refund self
      | _, _ => raise (TypeError "downgrade_refund() arguments")
      end
  | Code_Skill_execute_callbacks =>
      match params_execute_callbacks args kw with
      | Some (VRef self, VStr event_name, event_args) =>
          Skill.execute_callbacks call self event_name event_args
      | _ => raise (TypeError "execute_callbacks() arguments")
      end
  | Code_TickRepeatSkill_init cell =>
      match params_self_level args kw with
      | Some (self, level) => TickRepeatSkill.__init__ call cell self level
      | None => raise (TypeError "__init__() arguments")
      end
  | Code_TickRepeatSkill_tick =>
      match args with
      | VRef self :: rest => TickRepeatSkill._tick self rest kw
      | _ => raise (TypeError "_tick() arguments")
      end
  | Code_object_init =>
      match args, kw with
      | [_], [] => ret VNone
      | _, _ => raise (TypeError "object.__init__() takes exactly one argument")
      end
  | Code_user n =>
      fun w => match user n args kw w with (r, w') => (r, w', []) end
  end.

(** The interpreter's call, with its recursion limit. *)
Fixpoint py_call (user : user_code) (depth : nat) : caller :=
  fun f args kw w =>
    match depth with
    | O => (Raise RecursionError, w)
    | S d =>
        let run (m : M value) := let r := m w in (out r, final r) in
        match f with
        | VFunc fn => run (run_code user (py_call user d) (fn_code fn) args kw)
        | VBound self fn =>
            run (run_code user (py_call user d) (fn_code fn) (VRef self :: args) kw)
        | VRef c =>
            match class_at w c with
            | Some _ => run (instantiate (py_call user d) c args kw)
            | None => (Raise (TypeError "object is not callable"), w)
            end
        | _ => (Raise (TypeError "object is not callable"), w)
        end
    end.

(** ** The two classes of the module *)

Definition Skill_init_fn : func := mk_func "__init__" Code_Skill_init None.
Definition upgrade_cost_fn : func := mk_func "upgrade_cost" Code_Skill_upgrade_cost None.
Definition downgrade_refund_fn : func :=
  mk_func "downgrade_refund" Code_Skill_downgrade_refund None.
Definition execute_callbacks_fn : func :=
  mk_func "execute_callbacks" Code_Skill_execute_callbacks None.
Definition TickRepeatSkill_init_fn (cell : loc) : func :=
  mk_func "__init__" (Code_TickRepeatSkill_init cell) None.
Definition tick_fn : func := mk_func "_tick" Code_TickRepeatSkill_tick None.

(** The body of [class Skill(metaclass=_SkillMeta)], in source order.  The
    three [rpg.utils.ClassProperty] attributes are kept as descriptor
    objects naming their getters; [read_class_attr] below reads them. *)
Definition Skill_body : odict value :=
  [ ("__doc__", VStr "Skills are used by players to gain special powers.");
    ("class_id", VClassProperty "class_id");
    ("name", VClassProperty "name");
    ("description", VClassProperty "description");
    ("max_level", VNone);
    ("__init__", VFunc Skill_init_fn);
    ("upgrade_cost", VProperty upgrade_cost_fn);
    ("downgrade_refund", VProperty downgrade_refund_fn);
    ("execute_callbacks", VFunc execute_callbacks_fn) ].

(** The body of [class TickRepeatSkill(Skill)]; [cell] is the class being
    defined. *)
Definition TickRepeatSkill_body (cell : loc) : odict value :=
  [ ("__doc__", VStr "Base class for skills that need to use tick repeat.");
    ("__init__", VFunc (TickRepeatSkill_init_fn cell));
    ("_tick", VFunc tick_fn) ].

(** Importing the module defines [Skill], then [TickRepeatSkill]. *)
Definition load_module : M (loc * loc) :=
  do skill <- define_class "Skill" [] Skill_body;
  do w <- get_heap;
  do trs <- define_class "TickRepeatSkill" [skill] (TickRepeatSkill_body (length w));
  ret (skill, trs).

(** ** Observing the registry of a class *)

(** The location of the mapping that [cls._event_callbacks] denotes. *)
Definition registry_ref (w : heap) (c : loc) : option loc :=
  match mro_lookup w c "_event_callbacks" with
  | Some (VRef r) => Some r
  | _ => None
  end.

Definition resolve_list (w : heap) (v : value) : option (list value) :=
  match v with
  | VRef l => match w !! l with Some (OList xs) => Some xs | _ => None end
  | _ => None
  end.

(** The mapping stored at [r], its lists read out of the heap. *)
Definition dict_view (w : heap) (r : loc) : option (odict (list value)) :=
  match w !! r with
  | Some (ODefaultDict es) =>
      mapM (fun kv => pair (fst kv) <$> resolve_list w (snd kv)) es
  | _ => None
  end.

(** [cls._event_callbacks], as a mapping from event names to the callbacks
    registered for them. *)
Definition event_callbacks (w : heap) (c : loc) : option (odict (list value)) :=
  match registry_ref w c with
  | Some r => dict_view w r
  | None => None
  end.

(** The heap objects the mapping of a class consists of: the dictionary
    and the lists it holds. *)
Definition registry_footprint (w : heap) (c : loc) : list loc :=
  match registry_ref w c with
  | Some r =>
      r :: match w !! r with
           | Some (ODefaultDict es) =>
               omap (fun kv => match snd kv with VRef l => Some l | _ => None end) es
           | _ => []
           end
  | None => []
  end.

(** [c] is a class initialised by the metaclass: it heads its own resolution
    order and its own namespace binds [_event_callbacks] to the mapping at
    [r]. *)
Definition owns_registry (w : heap) (c r : loc) : Prop :=
  exists k, class_at w c = Some k /\ head (cls_mro k) = Some c /\
            od_lookup "_event_callbacks" (cls_dict k) = Some (VRef r).

(** The callbacks an instance finds for an event: what
    [self._event_callbacks] holds under [event_name], nothing when the name
    is not a key. *)
Definition callbacks_for (w : heap) (self : loc) (event_name : string)
  : option (list value) :=
  match getattr self "_event_callbacks" w with
  | (Normal (VRef r), _, _) =>
      match w !! r with
      | Some (ODefaultDict es) =>
          match od_lookup event_name es with
          | Some v => resolve_list w v
          | None => Some []
          end
      | _ => None
      end
  | _ => None
  end.

(** The registry a class body gives rise to, as a pure function of the
    body: the tagged values in body order, each appended under each of its
    event names. *)
Definition reg_add (m : odict (list value)) (event_name : string) (f : value)
  : odict (list value) :=
  od_set event_name (default [] (od_lookup event_name m) ++ [f]) m.

Definition reg_scan (m : odict (list value)) (f : value) : odict (list value) :=
  match get_events f with
  | None => m
  | Some events => fold_left (fun m' event_name => reg_add m' event_name f) events m
  end.

Definition group_events (attrs : odict value) : odict (list value) :=
  fold_left reg_scan (od_values attrs) [].

(** The invocation dispatch makes of one callback. *)
Definition dispatched (self : loc) (event_args : kwargs) (callback : value)
  : invocation :=
  mk_inv callback [VRef self] event_args.

(** The list object [self._event_callbacks[event_name]] denotes, when the
    name is a key: the object dispatch iterates. *)
Definition callback_list (w : heap) (self : loc) (event_name : string)
  : option loc :=
  match getattr self "_event_callbacks" w with
  | (Normal (VRef r), _, _) =>
      match w !! r with
      | Some (ODefaultDict es) =>
          match od_lookup event_name es with
          | Some (VRef l) => Some l
          | _ => None
          end
      | _ => None
      end
  | _ => None
  end.

(** The callbacks [cbs] run in sequence from [w] and leave the heap [w'];
    each returns normally and leaves the list object at [lst], the one
    being iterated, as it was. *)
Inductive all_return (call : caller) (self : loc) (event_args : kwargs)
    (lst : option loc) : list value -> heap -> heap -> Prop :=
| all_return_nil w : all_return call self event_args lst [] w w
| all_return_cons cb cbs w v w1 w2 :
    call cb [VRef self] event_args w = (Normal v, w1) ->
    (forall l, lst = Some l -> w1 !! l = w !! l) ->
    all_return call self event_args lst cbs w1 w2 ->
    all_return call self event_args lst (cb :: cbs) w w2.

(** ** Building the registry of a class *)

(** The registry while [_SkillMeta.__init__] fills it: one entry per event
    name, with the location of its list and the callbacks appended so far. *)
Definition ent_dict (ents : list (string * loc * list value)) : odict value :=
  map (fun e => (fst (fst e), VRef (snd (fst e)))) ents.

Definition ent_view (ents : list (string * loc * list value)) : odict (list value) :=
  map (fun e => (fst (fst e), snd e)) ents.

Definition ent_locs (ents : list (string * loc * list value)) : list loc :=
  map (fun e => snd (fst e)) ents.

(** [building w0 c r ents w]: the class at [c] owns the mapping at [r],
    which holds [ents]; the lists are distinct objects; class, mapping and
    lists were all allocated after the heap [w0], which is still intact. *)
Record building (w0 : heap) (c r : loc) (ents : list (string * loc * list value))
    (w : heap) : Prop := {
  b_class : owns_registry w c r;
  b_dict : w !! r = Some (ODefaultDict (ent_dict ents));
  b_lists : Forall (fun e => w !! snd (fst e) = Some (OList (snd e))) ents;
  b_nodup : NoDup (ent_locs ents);
  b_fresh : Forall (fun l => length w0 <= l) (c :: r :: ent_locs ents);
  b_old : take (length w0) w = w0
}.

(** ** What a class body declares for an event *)

Definition tagged_with (event_name : string) (f : value) : list value :=
  match get_events f with
  | Some events => map (fun _ => f) (List.filter (String.eqb event_name) events)
  | None => []
  end.

(** The callbacks a class body declares for an event, in body order. *)
Definition declared_for (event_name : string) (attrs : odict value) : list value :=
  flat_map (tagged_with event_name) (od_values attrs).

(** ** Which heap objects a registry depends on *)

(** Every skill class that shows a mapping in [w] shows the same mapping
    in [w']. *)
Definition registries_kept (w w' : heap) : Prop :=
  forall c r m,
    owns_registry w c r -> event_callbacks w c = Some m ->
    owns_registry w' c r /\ event_callbacks w' c = Some m.

(** Classes, dictionaries and lists: the objects registries are made of. *)
Definition is_registry_object (o : obj) : Prop :=
  match o with
  | OClass _ | ODefaultDict _ | OList _ => True
  | _ => False
  end.

Definition keeps {A} (m : M A) : Prop :=
  forall w, registries_kept w (final (m w)).

Definition caller_keeps (call : caller) : Prop :=
  forall f args kw w, registries_kept w (snd (call f args kw w)).

Definition user_keeps (user : user_code) : Prop :=
  forall n args kw w, registries_kept w (snd (user n args kw w)).

(** ** The registry after class construction *)

(** The operations of the module on a heap of skills. *)
Inductive operation :=
| Op_define_class (name : string) (bases : list loc) (attrs : odict value)
| Op_instantiate (cls : loc) (args : list value) (kw : kwargs)
| Op_upgrade_cost (self : loc)
| Op_downgrade_refund (self : loc)
| Op_execute_callbacks (self : loc) (event_name : string) (event_args : kwargs)
| Op_tick (t : loc).

Definition run_op (call : caller) (op : operation) : M value :=
  match op with
  | Op_define_class name bases attrs =>
      do c <- define_class name bases attrs; ret (VRef c)
  | Op_instantiate cls args kw => instantiate call cls args kw
  | Op_upgrade_cost self => Skill.upgrade_cost self
  | Op_downgrade_refund self => Skill.downgrade_refund self
  | Op_execute_callbacks self event_name event_args =>
      Skill.execute_callbacks call self event_name event_args
  | Op_tick t => TickRepeat_fire call t
  end.

(** The heap after a run of operations; an operation that raises leaves
    the heap it reached and the run goes on. *)
Fixpoint run_ops (call : caller) (ops : list operation) (w : heap) : heap :=
  match ops with
  | [] => w
  | op :: rest => run_ops call rest (final (run_op call op w))
  end.

(** ** Registries of distinct classes *)

(** A heap built by class statements, with the classes defined so far.
    In between the heap may change in any way that retains the classes,
    dictionaries and lists it holds: instances are created and written,
    timers are set up, players come and go. *)
Inductive class_heap : heap -> list loc -> Prop :=
| class_heap_empty : class_heap [] []
| class_heap_define w cs name bases attrs c w' log :
    class_heap w cs ->
    define_class name bases attrs w = (Normal c, w', log) ->
    class_heap w' (c :: cs)
| class_heap_other w w' cs :
    class_heap w cs ->
    (forall l o, w !! l = Some o -> is_registry_object o -> w' !! l = Some o) ->
    class_heap w' cs.

(** ** A running example: Bonus_Health and its subclasses *)

(** The heap after [class Skill], and after the whole module. *)
Definition heap_skill : heap := final (define_class "Skill" [] Skill_body []).

Definition heap_module : heap := final (load_module []).

Definition give_health : func :=
  mk_func "_give_health" (Code_user 0) (Some ["player_spawn"]).

Definition give_more : func :=
  mk_func "_give_more" (Code_user 1) (Some ["player_spawn"]).

(** The callbacks of the example.  Function 0 is the [_give_health] of the
    docstring of [Skill], [player.health += self.level * 25], which needs
    its [player] argument; function 1 does nothing. *)
Definition example_user : user_code :=
  fun n args kw w =>
    match n with
    | 0 =>
        match args, od_lookup "player" kw with
        | [VRef self], Some (VRef p) =>
            match w !! self, w !! p with
            | Some (OInstance _ d), Some (OInstance pc pd) =>
                match od_lookup "level" d, od_lookup "health" pd with
                | Some (VInt l), Some (VInt h) =>
                    (Normal VNone,
                     <[p := OInstance pc (od_set "health" (VInt (h + l * 25)) pd)]> w)
                | _, _ => (Raise (TypeError "unsupported operand type(s)"), w)
                end
            | _, _ => (Raise (AttributeError "health"), w)
            end
        | _, _ =>
            (Raise (TypeError "_give_health() missing 1 required positional argument: 'player'"), w)
        end
    | _ => (Normal VNone, w)
    end.

Definition Bonus_Health_body : odict value :=
  [ ("__doc__", VStr "Grant +25 bonus health for each level upon spawning.");
    ("max_level", VInt 16);
    ("_give_health", VFunc give_health) ].

Definition Bonus_Health_Plus_body : odict value :=
  [ ("_give_more", VFunc give_more) ].

(** The module loaded and [Bonus_Health(Skill)] defined: [Skill] is at 0,
    [TickRepeatSkill] at 2, [Bonus_Health] at 4. *)
Definition heap_base : heap :=
  final ((load_module ;; define_class "Bonus_Health" [0] Bonus_Health_body) []).

(** [Bonus_Health_Plus(Bonus_Health)] defined, at 7. *)
Definition heap_sub : heap :=
  final (define_class "Bonus_Health_Plus" [4] Bonus_Health_Plus_body heap_base).

(** An instance of [Bonus_Health_Plus] at level 2 (at 10), a plain class
    [Player] (at 11) and a player with 100 health (at 12). *)
Definition heap_play : heap :=
  final (instantiate (py_call example_user 1) 7 [VInt 2] [] heap_sub)
  ++ [OClass (mk_class "Player" "Player" [] [11] []);
      OInstance 11 [("health", VInt 100)]].

(** What C1 asks of a subclass [c] that overrides nothing of its base [b]:
    every callback list of [b] starts the list [c] holds for the same
    event. *)
Definition inherits_callbacks (w : heap) (c b : loc) : Prop :=
  forall mb e cbs_b,
    event_callbacks w b = Some mb -> od_lookup e mb = Some cbs_b ->
    exists mc cbs_c,
      event_callbacks w c = Some mc /\ od_lookup e mc = Some cbs_c /\
      cbs_b `prefix_of` cbs_c.

(** A class with three callbacks for one event: the second is
    [_give_health], which raises when the event carries no [player]. *)
Definition give_last : func :=
  mk_func "_give_last" (Code_user 2) (Some ["player_spawn"]).

Definition Trio_body : odict value :=
  [ ("_give_first", VFunc give_more);
    ("_give_health", VFunc give_health);
    ("_give_last", VFunc give_last) ].

(** [Trio(Bonus_Health)] defined (at 13) and instantiated at level 2
    (at 16). *)
Definition heap_trio : heap :=
  final ((define_class "Trio" [4] Trio_body ;;
          instantiate (py_call example_user 1) 13 [VInt 2] []) heap_play).

(** A subclass of [TickRepeatSkill] that declares a callback and leaves
    [_tick] alone, defined after [Bonus_Health] (at 7). *)
Definition Regeneration_body : odict value :=
  [ ("__doc__", VStr "Regenerate health over time.");
    ("max_level", VInt 5);
    ("_start", VFunc (mk_func "_start" (Code_user 1) (Some ["player_spawn"]))) ].


(** ** Class-level attributes of a skill *)

(** [s.replace('_', ' ')] *)
Fixpoint replace_underscores (s : string) : string :=
  match s with
  | EmptyString => EmptyString
  | String c s' =>
      String (if Ascii.eqb c "_" then " "%char else c) (replace_underscores s')
  end.

(** [cls.__doc__]: the docstring of the class itself, [None] when its body
    has none.  [__doc__] is in the namespace of every class, so it is
    never looked up on a base. *)
Definition class_doc (k : class_obj) : value :=
  default VNone (od_lookup "__doc__" (cls_dict k)).

(** The getter of [Skill.class_id]: [cls.__qualname__]. *)
Definition Skill_class_id (cls : loc) : M value :=
  fun w =>
    match class_at w cls with
    | Some k => (Normal (VStr (cls_qualname k)), w, [])
    | None => (Raise (AttributeError "__qualname__"), w, [])
    end.

(** The getter of [Skill.name]: [cls.__name__.replace('_', ' ')]. *)
Definition Skill_name (cls : loc) : M value :=
  fun w =>
    match class_at w cls with
    | Some k => (Normal (VStr (replace_underscores (cls_name k))), w, [])
    | None => (Raise (AttributeError "__name__"), w, [])
    end.

(** The getter of [Skill.description]: [cls.__doc__]. *)
Definition Skill_description (cls : loc) : M value :=
  fun w =>
    match class_at w cls with
    | Some k => (Normal (class_doc k), w, [])
    | None => (Raise (AttributeError "__doc__"), w, [])
    end.

(** Modelled from the spec: [rpg.utils.ClassProperty] is not among the
    sources.  It is a class-level computed property: read on a class, it
    runs its getter on that class. *)
Definition class_property_get (getter : string) (cls : loc) : M value :=
  if String.eqb getter "class_id" then Skill_class_id cls
  else if String.eqb getter "name" then Skill_name cls
  else if String.eqb getter "description" then Skill_description cls
  else raise (AttributeError getter).

(** [cls.name] read by a user of the class: the attribute found along the
    resolution order, a [ClassProperty] being computed for [cls]. *)
Definition read_class_attr (cls : loc) (name : string) : M value :=
  fun w =>
    match mro_lookup w cls name with
    | Some (VClassProperty getter) => class_property_get getter cls w
    | Some v => (Normal v, w, [])
    | None => (Raise (AttributeError name), w, [])
    end.

(** ** Well-formed classes *)

(** The class at [c] heads its own resolution order, which has no
    duplicates and consists of classes. *)
Definition class_wf (w : heap) (c : loc) : Prop :=
  exists k, class_at w c = Some k /\ head (cls_mro k) = Some c /\
            NoDup (cls_mro k) /\
            Forall (fun x => is_Some (class_at w x)) (cls_mro k).

(** A computation that leaves every class object as it is. *)
Definition keeps_class_objects {A} (m : M A) : Prop :=
  forall w l k, w !! l = Some (OClass k) -> final (m w) !! l = Some (OClass k).

(** ** Shape of a registry *)

(** A registry as the metaclass builds it: no key twice, no empty list. *)
Definition registry_ok (m : odict (list value)) : Prop :=
  NoDup (map fst m) /\ forall e xs, od_lookup e m = Some xs -> xs <> [].




(** ** The domain of the theorems *)

(** A class body of functions, bound methods, descriptors and constants:
    no value of it is a reference to a heap object; and, as in any
    namespace, no name occurs twice. *)
Definition is_object (v : value) : bool :=
  match v with
  | VRef _ => true
  | _ => false
  end.

Fixpoint distinct (names : list string) : bool :=
  match names with
  | [] => true
  | a :: rest => negb (existsb (String.eqb a) rest) && distinct rest
  end.

Definition plain_body (attrs : odict value) : bool :=
  forallb (fun v => negb (is_object v)) (od_values attrs)
  && distinct (map fst attrs).

(** Values that, found on the class under a name, may take over an
    assignment to that name on an instance: descriptor objects, and
    objects, whose class may define [__set__]. *)
Definition intercepts_assignment (v : value) : bool :=
  match v with
  | VProperty _ | VClassProperty _ | VRef _ => true
  | _ => false
  end.

Definition assignable_value (found : option value) : bool :=
  match found with
  | Some v => negb (intercepts_assignment v)
  | None => true
  end.

(** [self.name = v] on an instance of [cls] binds [name] on the instance:
    the class defines no descriptor under [name]. *)
Definition assignable (w : heap) (cls : loc) (name : string) : bool :=
  assignable_value (mro_lookup w cls name).

(** No base defines [__init_subclass__]. *)
Definition no_subclass_hook (w : heap) (bases : list loc) : bool :=
  forallb (fun b => match mro_lookup w b "__init_subclass__" with
                    | None => true
                    | Some _ => false
                    end) bases.

(** A class statement that [type.__new__] carries out without running
    code of the program: the body is one of functions, descriptors and
    constants, it lays out no slots and carries no class cell, and no
    base defines [__init_subclass__]. *)
Definition ordinary_statement (w : heap) (bases : list loc) (attrs : odict value)
  : bool :=
  plain_body attrs
  && negb (od_contains "__slots__" attrs)
  && negb (od_contains "__classcell__" attrs)
  && no_subclass_hook w bases.

(** Instances of [cls] are created and accessed the ordinary way: the
    class defines no [__new__], [__setattr__] or [__getattribute__]. *)
Definition ordinary_instances (w : heap) (cls : loc) : bool :=
  forallb (fun a => match mro_lookup w cls a with
                    | None => true
                    | Some _ => false
                    end)
    ["__new__"; "__setattr__"; "__getattribute__"].

(** The body binds none of [names]. *)
Definition binds_none (attrs : odict value) (names : list string) : bool :=
  forallb (fun a => negb (od_contains a attrs)) names.

(** Names that start with two underscores: the names Python itself gives
    a meaning on classes. *)
Definition special_name (a : string) : bool := String.prefix "__" a.

(** A body that carries no [__qualname__], or a string. *)
Definition qualname_ok (attrs : odict value) : bool :=
  match od_lookup "__qualname__" attrs with
  | None | Some (VStr _) => true
  | Some _ => false
  end.

(** Values that read on a class as they are stored: everything but a
    [ClassProperty], which is computed, and an object, whose class may
    define [__get__]. *)
Definition read_as_is (v : value) : bool :=
  match v with
  | VClassProperty _ | VRef _ => false
  | _ => true
  end.

(** The names under which the namespace of a class differs from its body. *)
Definition rebound_name (a : string) : bool :=
  String.eqb a "_event_callbacks" || String.eqb a "__doc__"
  || String.eqb a "__qualname__".

(** [rounds], counted in unary. *)
Fixpoint rounds_nat {St} (n : nat) (step : St -> M (option St)) (s : St)
  : M (option St) :=
  match n with
  | O => ret (Some s)
  | S n' => do r <- step s; and_then r (rounds_nat n' step)
  end.

(** One round of the loop of [execute_callbacks] over the list at [l]. *)
Definition dispatch_round (call : caller) (self : loc) (event_args : kwargs)
    (l : loc) (i : nat) : M (option nat) :=
  do now <- list_items (VRef l);
  match now !! i with
  | Some x => (invoke call x [VRef self] event_args ;; ret tt) ;; ret (Some (S i))
  | None => ret None
  end.

(** ** A callback that registers another one during dispatch *)

(** [Echo(Skill)], defined after [heap_play] (at 13, its mapping at 14,
    the list of ["player_spawn"] at 15) and instantiated (at 16).  Its one
    callback, function 3, appends [_give_more] to the list of
    ["player_spawn"] of its class. *)
Definition echo : func := mk_func "_echo" (Code_user 3) (Some ["player_spawn"]).

Definition Echo_body : odict value := [ ("_echo", VFunc echo) ].

Definition echo_user : user_code :=
  fun n args kw w =>
    match n with
    | 3 =>
        match w !! 15 with
        | Some (OList xs) => (Normal VNone, <[15 := OList (xs ++ [VFunc give_more])]> w)
        | _ => (Raise (AttributeError "append"), w)
        end
    | _ => (Normal VNone, w)
    end.

Definition heap_echo : heap :=
  final ((define_class "Echo" [0] Echo_body ;;
          instantiate (py_call echo_user 1) 13 [VInt 1] []) heap_play).

(** * Properties *)

(** ** The monad and attribute reads *)

Lemma bind_normal {A B} (m : M A) (k : A -> M B) w a w1 log1 :
  m w = (Normal a, w1, log1) ->
  bind m k w = (out (k a w1), final (k a w1), log1 ++ calls (k a w1)).
Proof.
  intros E. unfold bind, out, final, calls. rewrite E.
  destruct (k a w1) as [[r w2] log2]. reflexivity.
Qed.

Lemma bind_raise {A B} (m : M A) (k : A -> M B) w e w1 log1 :
  m w = (Raise e, w1, log1) -> bind m k w = (Raise e, w1, log1).
Proof. intros E. unfold bind. rewrite E. reflexivity. Qed.

Lemma getattr_pure self name w :
  exists r, getattr self name w = (r, w, []).
Proof.
  unfold getattr.
  destruct (w !! self) as [[k|c d|es|xs|cb]|]; eauto.
  destruct (od_lookup name d); eauto.
  destruct (mro_lookup w c name) as [[]|]; eauto.
Qed.

Lemma getattr_own (w : heap) self c d name v :
  w !! self = Some (OInstance c d) ->
  od_lookup name d = Some v ->
  getattr self name w = (Normal v, w, []).
Proof. intros Hs Hd. unfold getattr. rewrite Hs, Hd. reflexivity. Qed.

(** ** Insertion-ordered dictionaries *)

Lemma od_lookup_cons {V} (k k' : string) (v : V) d :
  od_lookup k ((k', v) :: d) = if String.eqb k k' then Some v else od_lookup k d.
Proof. unfold od_lookup. cbn [find fst]. destruct (String.eqb k k'); reflexivity. Qed.

Lemma od_lookup_set_eq {V} (k : string) (v : V) d :
  od_lookup k (od_set k v d) = Some v.
Proof.
  induction d as [|[k' v'] d IH]; cbn [od_set].
  - rewrite od_lookup_cons, String.eqb_refl. reflexivity.
  - destruct (String.eqb k k') eqn:E; rewrite od_lookup_cons, E; [reflexivity|exact IH].
Qed.

Lemma od_lookup_set_ne {V} (k k' : string) (v : V) d :
  k <> k' -> od_lookup k (od_set k' v d) = od_lookup k d.
Proof.
  intros Hne. apply String.eqb_neq in Hne.
  induction d as [|[k0 v0] d IH]; cbn [od_set].
  - rewrite od_lookup_cons, Hne. reflexivity.
  - destruct (String.eqb k' k0) eqn:E; rewrite !od_lookup_cons.
    + apply String.eqb_eq in E as <-. rewrite Hne. reflexivity.
    + rewrite IH. reflexivity.
Qed.

(** ** Heap bookkeeping *)

Lemma lookup_new (w : heap) (o : obj) (rest : heap) :
  (w ++ o :: rest) !! length w = Some o.
Proof. apply list_lookup_middle. reflexivity. Qed.

Lemma lookup_new_next (w : heap) (o o' : obj) (rest : heap) :
  (w ++ o :: o' :: rest) !! S (length w) = Some o'.
Proof.
  change (w ++ o :: o' :: rest) with (w ++ [o] ++ o' :: rest).
  rewrite app_assoc. apply list_lookup_middle.
  rewrite length_app. cbn. lia.
Qed.

Lemma insert_new (w : heap) (o o' : obj) (rest : heap) :
  <[length w := o']> (w ++ o :: rest) = w ++ o' :: rest.
Proof.
  rewrite insert_app_r_alt by lia. rewrite Nat.sub_diag. reflexivity.
Qed.

Lemma class_at_app (w ext : heap) (c : loc) :
  Forall (fun o => forall k, o <> OClass k) ext ->
  class_at (w ++ ext) c = class_at w c.
Proof.
  intros Hext. unfold class_at.
  destruct (decide (c < length w)) as [Hlt|Hge].
  - rewrite lookup_app_l by exact Hlt. reflexivity.
  - rewrite lookup_app_r by lia.
    rewrite (lookup_ge_None_2 w c) by lia.
    destruct (ext !! (c - length w)) as [o|] eqn:Ho; [|reflexivity].
    pose proof (Forall_lookup_1 _ _ _ _ Hext Ho) as Hno.
    destruct o; try reflexivity. exfalso. eapply Hno. reflexivity.
Qed.

Lemma class_at_insert (w : heap) (l : loc) (o : obj) (c : loc) :
  (forall k, o <> OClass k) ->
  class_at w l = None ->
  class_at (<[l := o]> w) c = class_at w c.
Proof.
  intros Ho Hl. unfold class_at in *.
  destruct (decide (l = c)) as [<-|Hne].
  - destruct (decide (l < length w)) as [Hlt|Hge].
    + rewrite list_lookup_insert_eq by exact Hlt.
      destruct o; try (symmetry; exact Hl). exfalso. eapply Ho. reflexivity.
    + rewrite list_insert_ge by lia. reflexivity.
  - rewrite list_lookup_insert_ne by exact Hne. reflexivity.
Qed.




Lemma owns_registry_ext (w w' : heap) (c r : loc) :
  class_at w' c = class_at w c -> owns_registry w c r -> owns_registry w' c r.
Proof. intros H (k & Hk & Hrest). exists k. rewrite H. auto. Qed.

Lemma owns_registry_lookup (w : heap) (c r : loc) :
  owns_registry w c r -> mro_lookup w c "_event_callbacks" = Some (VRef r).
Proof.
  intros (k & Hk & Hhd & Hd). unfold mro_lookup. rewrite Hk.
  destruct (cls_mro k) as [|c' tail]; [discriminate|].
  injection Hhd as ->. cbn [lookup_along]. unfold class_dict_lookup.
  rewrite Hk, Hd. reflexivity.
Qed.

(** ** What a class body declares for an event *)

Lemma reg_add_lookup (m : odict (list value)) (e k : string) (f : value) :
  default [] (od_lookup e (reg_add m k f))
  = default [] (od_lookup e m) ++ (if String.eqb e k then [f] else []).
Proof.
  unfold reg_add. destruct (String.eqb e k) eqn:E.
  - apply String.eqb_eq in E as ->. rewrite od_lookup_set_eq. reflexivity.
  - apply String.eqb_neq in E. rewrite od_lookup_set_ne by exact E.
    rewrite app_nil_r. reflexivity.
Qed.

Lemma reg_scan_lookup (m : odict (list value)) (e : string) (f : value) :
  default [] (od_lookup e (reg_scan m f))
  = default [] (od_lookup e m) ++ tagged_with e f.
Proof.
  unfold reg_scan, tagged_with. destruct (get_events f) as [events|].
  - revert m. induction events as [|k events IH]; intros m; cbn [fold_left List.filter].
    + rewrite app_nil_r. reflexivity.
    + rewrite IH, reg_add_lookup, <- app_assoc.
      destruct (String.eqb e k); reflexivity.
  - rewrite app_nil_r. reflexivity.
Qed.

Lemma group_events_lookup (attrs : odict value) (e : string) :
  default [] (od_lookup e (group_events attrs)) = declared_for e attrs.
Proof.
  unfold group_events, declared_for.
  change (flat_map (tagged_with e) (od_values attrs))
    with (default [] (od_lookup e (@nil (string * list value)))
          ++ flat_map (tagged_with e) (od_values attrs)).
  generalize (@nil (string * list value)) as m.
  induction (od_values attrs) as [|f vals IH]; intros m; cbn [fold_left flat_map].
  - rewrite app_nil_r. reflexivity.
  - rewrite IH, reg_scan_lookup, <- app_assoc. reflexivity.
Qed.

(** ** Dispatch *)

(** ** Rounds of a loop *)

Lemma and_then_ret {St} (m : M (option St)) (w : heap) :
  (do r <- m; and_then r (fun s => ret (Some s))) w = m w.
Proof.
  unfold bind. destruct (m w) as [[[[s|]|e] w1] log1]; cbn;
    rewrite ?app_nil_r; reflexivity.
Qed.

Lemma rounds_nat_add {St} (step : St -> M (option St)) (a b : nat) :
  forall s w,
    rounds_nat (a + b) step s w
    = (do r <- rounds_nat a step s; and_then r (rounds_nat b step)) w.
Proof.
  induction a as [|a IH]; intros s w.
  - cbn. unfold bind, ret. destruct (rounds_nat b step s w) as [[r w2] log2].
    reflexivity.
  - cbn [Nat.add rounds_nat]. unfold bind at 1 2 3.
    destruct (step s w) as [[[[s1|]|e] w1] log1]; cbn [and_then].
    + rewrite IH. unfold bind.
      destruct (rounds_nat a step s1 w1) as [[[r1|e1] w2] log2]; [|reflexivity].
      destruct (and_then r1 (rounds_nat b step) w2) as [[r3 w3] log3].
      rewrite app_assoc. reflexivity.
    + cbn. rewrite !app_nil_r. reflexivity.
    + reflexivity.
Qed.

(** The rounds counted in binary are the rounds counted in unary. *)
Lemma rounds_unary {St} (step : St -> M (option St)) (p : positive) :
  forall s w, rounds p step s w = rounds_nat (Pos.to_nat p) step s w.
Proof.
  induction p as [p IH|p IH|]; intros s w.
  - rewrite Pos2Nat.inj_xI.
    replace (S (2 * Pos.to_nat p)) with (S (Pos.to_nat p + Pos.to_nat p)) by lia.
    cbn [rounds rounds_nat]. unfold bind at 1 3.
    destruct (step s w) as [[[[s1|]|e] w1] log1]; cbn [and_then]; try reflexivity.
    rewrite rounds_nat_add. unfold bind. rewrite IH.
    destruct (rounds_nat (Pos.to_nat p) step s1 w1) as [[[[s2|]|e1] w2] log2];
      cbn [and_then]; try reflexivity.
    rewrite IH. reflexivity.
  - rewrite Pos2Nat.inj_xO.
    replace (2 * Pos.to_nat p) with (Pos.to_nat p + Pos.to_nat p) by lia.
    cbn [rounds]. rewrite rounds_nat_add. unfold bind. rewrite IH.
    destruct (rounds_nat (Pos.to_nat p) step s w) as [[[[s2|]|e1] w2] log2];
      cbn [and_then]; try reflexivity.
    rewrite IH. reflexivity.
  - cbn [rounds]. symmetry. apply and_then_ret.
Qed.

(** The rounds granted to a loop outnumber the items its list has at the
    start. *)
Lemma enough_rounds (n : nat) :
  n < Pos.to_nat (Pos.of_succ_nat n + max_index).
Proof.
  rewrite Pos2Nat.inj_add, SuccNat2Pos.id_succ.
  pose proof (Pos2Nat.is_pos max_index). lia.
Qed.

Lemma drop_head {A} (xs : list A) (i : nat) (x : A) (rest : list A) :
  drop i xs = x :: rest -> xs !! i = Some x /\ drop (S i) xs = rest.
Proof.
  intros H. split.
  - rewrite <- (Nat.add_0_r i), <- lookup_drop, H. reflexivity.
  - rewrite <- Nat.add_1_r, <- drop_drop, H. reflexivity.
Qed.

Lemma drop_end {A} (xs : list A) (i : nat) :
  drop i xs = [] -> xs !! i = None.
Proof.
  intros H. rewrite <- (Nat.add_0_r i), <- lookup_drop, H. reflexivity.
Qed.

(** ** The loop of dispatch *)

Lemma dispatch_round_end call self event_args l w xs i :
  w !! l = Some (OList xs) -> xs !! i = None ->
  dispatch_round call self event_args l i w = (Normal None, w, []).
Proof.
  intros Hl Hi. unfold dispatch_round, bind, list_items. rewrite Hl, Hi.
  reflexivity.
Qed.

Lemma dispatch_round_call call self event_args l w xs i cb :
  w !! l = Some (OList xs) -> xs !! i = Some cb ->
  dispatch_round call self event_args l i w
  = match call cb [VRef self] event_args w with
    | (Normal _, w1) => (Normal (Some (S i)), w1, [dispatched self event_args cb])
    | (Raise e, w1) => (Raise e, w1, [dispatched self event_args cb])
    end.
Proof.
  intros Hl Hi. unfold dispatch_round, bind, list_items, invoke. rewrite Hl, Hi.
  destruct (call cb [VRef self] event_args w) as [[v|e] w1]; reflexivity.
Qed.

(** Callbacks that return and leave the list alone are called one after
    the other, and the loop ends behind the last. *)
Lemma rounds_all_return call self event_args l xs cbs w w' :
  all_return call self event_args (Some l) cbs w w' ->
  forall i n,
    w !! l = Some (OList xs) -> drop i xs = cbs -> length cbs < n ->
    rounds_nat n (dispatch_round call self event_args l) i w
    = (Normal None, w', map (dispatched self event_args) cbs).
Proof.
  induction 1 as [w|cb cbs w v w1 w2 Hcall Hkeep _ IH]; intros i n Hl Hdrop Hn.
  - destruct n as [|n]; [cbn in Hn; lia|]. cbn [rounds_nat].
    rewrite (bind_normal _ _ _ _ _ _
               (dispatch_round_end call self event_args l w xs i Hl (drop_end _ _ Hdrop))).
    reflexivity.
  - destruct n as [|n]; [cbn in Hn; lia|]. cbn [rounds_nat].
    destruct (drop_head _ _ _ _ Hdrop) as [Hi Hrest].
    pose proof (dispatch_round_call call self event_args l w xs i cb Hl Hi) as Hround.
    rewrite Hcall in Hround.
    rewrite (bind_normal _ _ _ _ _ _ Hround). cbn [and_then].
    assert (Hl1 : w1 !! l = Some (OList xs)) by (rewrite (Hkeep l eq_refl); exact Hl).
    cbn [length] in Hn.
    rewrite (IH (S i) n Hl1 Hrest ltac:(lia)). reflexivity.
Qed.

(** The first callback that raises ends the loop with its exception. *)
Lemma rounds_raise call self event_args l xs pre cb post w w1 w2 e :
  all_return call self event_args (Some l) pre w w1 ->
  call cb [VRef self] event_args w1 = (Raise e, w2) ->
  forall i n,
    w !! l = Some (OList xs) -> drop i xs = pre ++ cb :: post -> length pre < n ->
    rounds_nat n (dispatch_round call self event_args l) i w
    = (Raise e, w2, map (dispatched self event_args) (pre ++ [cb])).
Proof.
  intros Hpre Hcb.
  induction Hpre as [w|c cs w v w1 w1' Hcall Hkeep _ IH]; intros i n Hl Hdrop Hn.
  - destruct n as [|n]; [cbn in Hn; lia|]. cbn [rounds_nat].
    destruct (drop_head _ _ _ _ Hdrop) as [Hi _].
    pose proof (dispatch_round_call call self event_args l w xs i cb Hl Hi) as Hround.
    rewrite Hcb in Hround.
    rewrite (bind_raise _ _ _ _ _ _ Hround). reflexivity.
  - destruct n as [|n]; [cbn in Hn; lia|]. cbn [rounds_nat].
    destruct (drop_head _ _ _ _ Hdrop) as [Hi Hrest].
    pose proof (dispatch_round_call call self event_args l w xs i c Hl Hi) as Hround.
    rewrite Hcall in Hround.
    rewrite (bind_normal _ _ _ _ _ _ Hround). cbn [and_then].
    assert (Hl1 : w1 !! l = Some (OList xs)) by (rewrite (Hkeep l eq_refl); exact Hl).
    cbn [length] in Hn.
    rewrite (IH Hcb (S i) n Hl1 Hrest ltac:(lia)). reflexivity.
Qed.

(** The loop over a list object, as rounds counted in unary. *)
Lemma for_in_list_rounds call self event_args l xs w :
  w !! l = Some (OList xs) ->
  for_in_list (VRef l) (fun callback =>
    invoke call callback [VRef self] event_args ;; ret tt) w
  = (rounds_nat (Pos.to_nat (Pos.of_succ_nat (length xs) + max_index))
       (dispatch_round call self event_args l) 0 ;;
     ret tt) w.
Proof.
  intros Hl. unfold for_in_list.
  assert (Hi : list_items (VRef l) w = (Normal xs, w, [])).
  { unfold list_items. rewrite Hl. reflexivity. }
  rewrite (bind_normal _ _ _ _ _ _ Hi).
  change (fun i : nat =>
            do now <- list_items (VRef l);
            match now !! i with
            | Some x => (invoke call x [VRef self] event_args ;; ret tt) ;; ret (Some (S i))
            | None => ret None
            end)
    with (dispatch_round call self event_args l).
  assert (HK : (rounds (Pos.of_succ_nat (length xs) + max_index)
                  (dispatch_round call self event_args l) 0 ;; ret tt) w
               = (rounds_nat (Pos.to_nat (Pos.of_succ_nat (length xs) + max_index))
                    (dispatch_round call self event_args l) 0 ;; ret tt) w).
  { unfold bind. rewrite rounds_unary. reflexivity. }
  rewrite HK.
  destruct ((rounds_nat _ _ 0 ;; ret tt) w) as [[r w1] log1]. reflexivity.
Qed.

Lemma loop_all_return call self event_args l cbs w w' :
  w !! l = Some (OList cbs) ->
  all_return call self event_args (Some l) cbs w w' ->
  for_in_list (VRef l) (fun callback =>
    invoke call callback [VRef self] event_args ;; ret tt) w
  = (Normal tt, w', map (dispatched self event_args) cbs).
Proof.
  intros Hl Hall. rewrite (for_in_list_rounds _ _ _ _ _ _ Hl).
  rewrite (bind_normal _ _ _ _ _ _
             (rounds_all_return _ _ _ _ _ _ _ _ Hall 0 _ Hl eq_refl
                (enough_rounds (length cbs)))).
  cbn. rewrite app_nil_r. reflexivity.
Qed.

Lemma loop_raise call self event_args l pre cb post w w1 w2 e :
  w !! l = Some (OList (pre ++ cb :: post)) ->
  all_return call self event_args (Some l) pre w w1 ->
  call cb [VRef self] event_args w1 = (Raise e, w2) ->
  for_in_list (VRef l) (fun callback =>
    invoke call callback [VRef self] event_args ;; ret tt) w
  = (Raise e, w2, map (dispatched self event_args) (pre ++ [cb])).
Proof.
  intros Hl Hpre Hcb. rewrite (for_in_list_rounds _ _ _ _ _ _ Hl).
  apply bind_raise.
  apply (rounds_raise _ _ _ _ _ _ _ post _ _ _ _ Hpre Hcb 0 _ Hl eq_refl).
  pose proof (enough_rounds (length (pre ++ cb :: post))) as H.
  assert (length pre <= length (pre ++ cb :: post)) by (rewrite length_app; lia).
  lia.
Qed.

(** What dispatch does once the callbacks of the event are known: nothing
    when the name is no key, and otherwise the loop over the list object
    of the event, on the unchanged heap. *)
Lemma execute_callbacks_loop call self event_name event_args w cbs :
  callbacks_for w self event_name = Some cbs ->
  (callback_list w self event_name = None /\ cbs = [] /\
   Skill.execute_callbacks call self event_name event_args w = (Normal VNone, w, [])) \/
  (exists l,
     callback_list w self event_name = Some l /\ w !! l = Some (OList cbs) /\
     let loop := for_in_list (VRef l) (fun callback =>
                   invoke call callback [VRef self] event_args ;; ret tt) w in
     Skill.execute_callbacks call self event_name event_args w =
       (match out loop with Normal _ => Normal VNone | Raise e => Raise e end,
        final loop, calls loop)).
Proof.
  unfold callbacks_for, callback_list. intros H.
  destruct (getattr_pure self "_event_callbacks" w) as [r Hr].
  rewrite Hr in H. rewrite Hr.
  destruct r as [[| | | | | | |r]|]; try discriminate.
  destruct (w !! r) as [[| |es| |]|] eqn:Hd; try discriminate.
  unfold Skill.execute_callbacks.
  rewrite (bind_normal _ _ _ _ _ _ Hr).
  assert (Hc : dd_contains (VRef r) event_name w
               = (Normal (od_contains event_name es), w, [])).
  { unfold dd_contains. rewrite Hd. reflexivity. }
  rewrite (bind_normal _ _ _ _ _ _ Hc).
  unfold od_contains.
  destruct (od_lookup event_name es) as [v|] eqn:Hk.
  - right. cbn [negb].
    rewrite (bind_normal _ _ _ _ _ _ Hr).
    assert (Hg : dd_getitem (VRef r) event_name w = (Normal v, w, [])).
    { unfold dd_getitem. rewrite Hd, Hk. reflexivity. }
    rewrite (bind_normal _ _ _ _ _ _ Hg).
    unfold resolve_list in H.
    destruct v as [| | | | | | |l]; try discriminate.
    destruct (w !! l) as [[| | |xs|]|] eqn:Hl; try discriminate.
    injection H as ->.
    exists l. split; [reflexivity|split; [exact Hl|]]. cbv zeta.
    destruct (for_in_list (VRef l) _ w) as [[[[]|e] w'] log] eqn:Hloop.
    + rewrite (bind_normal _ _ _ _ _ _ Hloop). cbn.
      rewrite app_nil_r. reflexivity.
    + rewrite (bind_raise _ _ _ _ _ _ Hloop). reflexivity.
  - left. injection H as <-. split; [reflexivity|split; reflexivity].
Qed.

(** Dispatch either fails before it changes or calls anything, or finds
    the callbacks of the event: the membership test guards the indexing,
    which would otherwise add the missing key to the mapping. *)
Lemma execute_callbacks_cases call self event_name event_args w :
  (exists e, Skill.execute_callbacks call self event_name event_args w = (Raise e, w, [])) \/
  (exists cbs, callbacks_for w self event_name = Some cbs).
Proof.
  unfold callbacks_for, Skill.execute_callbacks.
  destruct (getattr_pure self "_event_callbacks" w) as [[v|e] Hr];
    [|left; exists e; apply (bind_raise _ _ _ _ _ _ Hr)].
  rewrite Hr. rewrite (bind_normal _ _ _ _ _ _ Hr).
  assert (Hc : dd_contains v event_name w
               = match v with
                 | VRef r =>
                     match w !! r with
                     | Some (ODefaultDict es) => (Normal (od_contains event_name es), w, [])
                     | _ => (Raise (TypeError "argument is not iterable"), w, [])
                     end
                 | _ => (Raise (TypeError "argument is not iterable"), w, [])
                 end) by reflexivity.
  destruct v as [| | | | | | |r];
    try (left; eexists; rewrite (bind_raise _ _ _ _ _ _ Hc); reflexivity).
  destruct (w !! r) as [[| |es| |]|] eqn:Hd;
    try (left; eexists; rewrite (bind_raise _ _ _ _ _ _ Hc); reflexivity).
  rewrite (bind_normal _ _ _ _ _ _ Hc). unfold od_contains.
  destruct (od_lookup event_name es) as [v|] eqn:Hk; [|right; eauto].
  cbn [negb]. rewrite (bind_normal _ _ _ _ _ _ Hr).
  assert (Hg : dd_getitem (VRef r) event_name w = (Normal v, w, [])).
  { unfold dd_getitem. rewrite Hd, Hk. reflexivity. }
  rewrite (bind_normal _ _ _ _ _ _ Hg).
  assert (Hi : list_items v w
               = match resolve_list w v with
                 | Some xs => (Normal xs, w, [])
                 | None => (Raise (TypeError "object is not iterable"), w, [])
                 end).
  { unfold list_items, resolve_list. destruct v as [| | | | | | |l]; try reflexivity.
    destruct (w !! l) as [[]|]; reflexivity. }
  destruct (resolve_list w v) as [xs|]; [right; eauto|].
  left. eexists.
  assert (Hf : for_in_list v (fun callback =>
                 invoke call callback [VRef self] event_args ;; ret tt) w
               = (Raise (TypeError "object is not iterable"), w, [])).
  { unfold for_in_list. apply bind_raise, Hi. }
  rewrite (bind_raise _ _ _ _ _ _ Hf). reflexivity.
Qed.

Lemma view_lookup w es m event_name :
  mapM (fun kv => pair (fst kv) <$> resolve_list w (snd kv)) es = Some m ->
  od_lookup event_name m = od_lookup event_name es ≫= resolve_list w.
Proof.
  rewrite mapM_Some. induction 1 as [|[k v] [k' xs] es m Hkv _ IH]; [reflexivity|].
  cbn in Hkv. destruct (resolve_list w v) as [ys|] eqn:Hv; [|discriminate].
  injection Hkv as <- <-.
  unfold od_lookup in *. cbn [find fst].
  destruct (String.eqb event_name k); [cbn; rewrite Hv; reflexivity|exact IH].
Qed.

(** An instance that does not shadow [_event_callbacks] finds the
    callbacks of its class. *)
Lemma callbacks_for_instance w self c d m event_name :
  w !! self = Some (OInstance c d) ->
  od_lookup "_event_callbacks" d = None ->
  event_callbacks w c = Some m ->
  callbacks_for w self event_name = Some (default [] (od_lookup event_name m)).
Proof.
  intros Hself Hd Hm. unfold event_callbacks, registry_ref in Hm.
  unfold callbacks_for, getattr. rewrite Hself, Hd.
  destruct (mro_lookup w c "_event_callbacks") as [[| | | | | | |r]|];
    try discriminate.
  unfold dict_view in Hm.
  destruct (w !! r) as [[| |es| |]|]; try discriminate.
  rewrite (view_lookup _ _ _ event_name Hm).
  destruct (od_lookup event_name es) as [v|] eqn:Hk; [|reflexivity].
  cbn. apply mapM_Some in Hm.
  assert (Hv : is_Some (resolve_list w v)).
  { clear -Hm Hk. unfold od_lookup in Hk.
    induction Hm as [|[k v'] y es m Hy _ IH]; [discriminate|].
    cbn [find fst] in Hk. destruct (String.eqb event_name k).
    - cbn in Hk. injection Hk as <-. cbn in Hy.
      destruct (resolve_list w v'); [eauto|discriminate].
    - apply IH, Hk. }
  destruct Hv as [xs Hxs]. rewrite Hxs. reflexivity.
Qed.

(** C4. When the class of an instance registers no callback for an event
    (the name is no key of its mapping, or its list is empty), dispatching
    the event on the instance returns normally, calls nothing and leaves
    the whole heap, and with it the instance and its level, as it was. *)
Theorem dispatch_unregistered_event_is_noop
    (call : caller) (self c : loc) (d : odict value) (m : odict (list value))
    (event_name : string) (event_args : kwargs) (w : heap) :
  w !! self = Some (OInstance c d) ->
  od_lookup "_event_callbacks" d = None ->
  event_callbacks w c = Some m ->
  default [] (od_lookup event_name m) = [] ->
  Skill.execute_callbacks call self event_name event_args w = (Normal VNone, w, []).
Proof.
  intros Hself Hd Hm Hnone.
  pose proof (callbacks_for_instance _ _ _ _ _ event_name Hself Hd Hm) as H.
  rewrite Hnone in H.
  destruct (execute_callbacks_loop call self event_name event_args w [] H)
    as [(_ & _ & ->)|(l & _ & Hl & ->)]; [reflexivity|].
  cbv zeta.
  rewrite (loop_all_return _ _ _ _ _ _ _ Hl (all_return_nil _ _ _ _ _)).
  reflexivity.
Qed.

Lemma dispatch_unregistered_event_is_noop_witness :
  heap_play !! 10 = Some (OInstance 7 [("level", VInt 2)]) /\
  event_callbacks heap_play 7 = Some [("player_spawn", [VFunc give_more])] /\
  Skill.execute_callbacks (py_call example_user 1) 10 "player_death"
    [("player", VRef 12)] heap_play
  = (Normal VNone, heap_play, []).
Proof.
  assert (H1 : heap_play !! 10 = Some (OInstance 7 [("level", VInt 2)]))
    by (vm_compute; reflexivity).
  assert (H2 : event_callbacks heap_play 7 = Some [("player_spawn", [VFunc give_more])])
    by (vm_compute; reflexivity).
  split; [exact H1|split; [exact H2|]].
  exact (dispatch_unregistered_event_is_noop _ 10 7 _ _ "player_death" _ heap_play
           H1 eq_refl H2 eq_refl).
Defined.

(** C5. When the callbacks before the k-th return normally, leaving the
    list of the event as it is, and the k-th raises [e], dispatch ends
    with that very [e], in the heap the failing callback left; the calls
    made are the first k callbacks, once each, so no later callback runs
    and the failing one is not retried. *)
Theorem callback_error_propagates
    (call : caller) (self : loc) (event_name : string) (event_args : kwargs)
    (w w1 w2 : heap) (pre post : list value) (cb : value) (e : exn) :
  callbacks_for w self event_name = Some (pre ++ cb :: post) ->
  all_return call self event_args (callback_list w self event_name) pre w w1 ->
  call cb [VRef self] event_args w1 = (Raise e, w2) ->
  Skill.execute_callbacks call self event_name event_args w =
    (Raise e, w2, map (dispatched self event_args) (pre ++ [cb])).
Proof.
  intros H Hpre Hcb.
  destruct (execute_callbacks_loop call self event_name event_args w _ H)
    as [(_ & Hnil & _)|(l & Hlst & Hl & ->)].
  - destruct pre; discriminate Hnil.
  - cbv zeta. rewrite Hlst in Hpre.
    rewrite (loop_raise _ _ _ _ _ _ _ _ _ _ _ Hl Hpre Hcb). reflexivity.
Qed.

Lemma callback_error_propagates_witness :
  callbacks_for heap_trio 16 "player_spawn"
    = Some ([VFunc give_more] ++ VFunc give_health :: [VFunc give_last]) /\
  Skill.execute_callbacks (py_call example_user 1) 16 "player_spawn" [] heap_trio
  = (Raise (TypeError "_give_health() missing 1 required positional argument: 'player'"),
     heap_trio,
     [dispatched 16 [] (VFunc give_more); dispatched 16 [] (VFunc give_health)]).
Proof.
  assert (H : callbacks_for heap_trio 16 "player_spawn"
              = Some ([VFunc give_more] ++ VFunc give_health :: [VFunc give_last]))
    by (vm_compute; reflexivity).
  split; [exact H|].
  apply (callback_error_propagates (py_call example_user 1) 16 "player_spawn" []
           heap_trio heap_trio heap_trio _ _ _ _ H).
  - eapply all_return_cons; [vm_compute; reflexivity| |apply all_return_nil].
    intros l Hl. reflexivity.
  - vm_compute. reflexivity.
Defined.

(** C2. When the callbacks registered for the event return normally one
    after the other, each leaving the list of the event as it is, dispatch
    calls exactly them: each once, in the order of the registry, each with
    the instance itself and the same event data, and it returns [None] in
    the heap the last callback left.  The order of the registry is the
    order of declaration: when the class of the instance holds what its
    body [attrs] registers, the list is [declared_for event_name attrs]. *)
Theorem dispatch_runs_registered_callbacks
    (call : caller) (self : loc) (event_name : string) (event_args : kwargs)
    (w w' : heap) (cbs : list value) :
  callbacks_for w self event_name = Some cbs ->
  all_return call self event_args (callback_list w self event_name) cbs w w' ->
  Skill.execute_callbacks call self event_name event_args w
    = (Normal VNone, w', map (dispatched self event_args) cbs) /\
  (forall c d attrs,
     w !! self = Some (OInstance c d) ->
     od_lookup "_event_callbacks" d = None ->
     event_callbacks w c = Some (group_events attrs) ->
     cbs = declared_for event_name attrs).
Proof.
  intros H Hall. split.
  - destruct (execute_callbacks_loop call self event_name event_args w _ H)
      as [(_ & -> & ->)|(l & Hlst & Hl & ->)].
    + inversion Hall. reflexivity.
    + cbv zeta. rewrite Hlst in Hall.
      rewrite (loop_all_return _ _ _ _ _ _ _ Hl Hall). reflexivity.
  - intros c d attrs Hself Hd Hm.
    pose proof (callbacks_for_instance _ _ _ _ _ event_name Hself Hd Hm) as H'.
    rewrite group_events_lookup, H in H'. injection H' as ->. reflexivity.
Qed.

Lemma dispatch_runs_registered_callbacks_witness :
  callbacks_for heap_trio 16 "player_spawn"
    = Some [VFunc give_more; VFunc give_health; VFunc give_last] /\
  Skill.execute_callbacks (py_call example_user 1) 16 "player_spawn"
    [("player", VRef 12)] heap_trio
  = (Normal VNone,
     <[12 := OInstance 11 [("health", VInt 150)]]> heap_trio,
     map (dispatched 16 [("player", VRef 12)])
         [VFunc give_more; VFunc give_health; VFunc give_last]).
Proof.
  assert (H : callbacks_for heap_trio 16 "player_spawn"
              = Some [VFunc give_more; VFunc give_health; VFunc give_last])
    by (vm_compute; reflexivity).
  split; [exact H|].
  assert (Hall : all_return (py_call example_user 1) 16 [("player", VRef 12)]
                   (callback_list heap_trio 16 "player_spawn")
                   [VFunc give_more; VFunc give_health; VFunc give_last] heap_trio
                   (<[12 := OInstance 11 [("health", VInt 150)]]> heap_trio)).
  { eapply all_return_cons; [vm_compute; reflexivity|intros l Hl; reflexivity|].
    eapply all_return_cons;
      [vm_compute; reflexivity
      |intros l Hl; vm_compute in Hl; injection Hl as <-; vm_compute; reflexivity|].
    eapply all_return_cons; [vm_compute; reflexivity|intros l Hl; reflexivity|].
    apply all_return_nil. }
  exact (proj1 (dispatch_runs_registered_callbacks
                  (py_call example_user 1) 16 "player_spawn"
                  [("player", VRef 12)] heap_trio _ _ H Hall)).
Defined.

(** The loop of dispatch follows the list object.  [_echo] is the one
    callback registered for ["player_spawn"] when dispatch starts; it
    appends [_give_more] to the list it is being called from, and
    [_give_more] is called in the same dispatch. *)
Lemma dispatch_follows_the_list :
  callbacks_for heap_echo 16 "player_spawn" = Some [VFunc echo] /\
  Skill.execute_callbacks (py_call echo_user 1) 16 "player_spawn" [] heap_echo
  = (Normal VNone,
     <[15 := OList [VFunc echo; VFunc give_more]]> heap_echo,
     [dispatched 16 [] (VFunc echo); dispatched 16 [] (VFunc give_more)]).
Proof. split; vm_compute; reflexivity. Qed.

(** ** Level pricing and construction *)



Lemma Skill_init_new (w : heap) (self c : loc) (d : odict value) (level : value) rest :
  self = length w ->
  Skill.__init__ self level (w ++ OInstance c d :: rest)
  = (Normal VNone, w ++ OInstance c (od_set "level" level d) :: rest, []).
Proof.
  intros ->. unfold Skill.__init__, bind, setattr, store.
  rewrite lookup_new, insert_new. reflexivity.
Qed.

(** C10. A class whose [__init__] is [Skill.__init__], whose instances
    are created and accessed the ordinary way and which defines no
    descriptor named [level], can be instantiated with any integer: the
    new instance holds exactly that integer as its level, whatever its
    sign or size ([0] when no level is passed), and the two prices are
    computed from it as it stands. *)
Theorem constructor_stores_level_verbatim
    (user : user_code) (depth : nat) (w : heap) (cls : loc) (z : Z) :
  mro_lookup w cls "__init__" = Some (VFunc Skill_init_fn) ->
  ordinary_instances w cls = true ->
  assignable w cls "level" = true ->
  let call := py_call user (S depth) in
  let self := length w in
  let built (level : Z) := w ++ [OInstance cls [("level", VInt level)]] in
  instantiate call cls [VInt z] [] w
    = (Normal (VRef self), built z,
       [mk_inv (VFunc Skill_init_fn) [VRef self; VInt z] []]) /\
  instantiate call cls [] [] w
    = (Normal (VRef self), built 0%Z,
       [mk_inv (VFunc Skill_init_fn) [VRef self] []]) /\
  Skill.upgrade_cost self (built z) = (Normal (VInt ((z + 1) * 5)), built z, []) /\
  Skill.downgrade_refund self (built z) = (Normal (VInt (z * 4)), built z, []).
Proof.
  intros Hinit _ _. cbv zeta.
  assert (Hrun : forall args level,
    params_self_level (VRef (length w) :: args) [] = Some (length w, VInt level) ->
    instantiate (py_call user (S depth)) cls args [] w
    = (Normal (VRef (length w)), w ++ [OInstance cls [("level", VInt level)]],
       [mk_inv (VFunc Skill_init_fn) (VRef (length w) :: args) []])).
  { intros args level Hp. unfold instantiate, bind at 1, get_heap.
    rewrite Hinit. unfold bind at 1, alloc. unfold bind at 1, invoke.
    cbn [py_call Skill_init_fn fn_code run_code]. rewrite Hp.
    rewrite (Skill_init_new w (length w) cls [] (VInt level) [] eq_refl).
    reflexivity. }
  split; [apply Hrun; reflexivity|].
  split; [apply Hrun; reflexivity|].
  assert (Hg : getattr (length w) "level" (w ++ [OInstance cls [("level", VInt z)]])
               = (Normal (VInt z), w ++ [OInstance cls [("level", VInt z)]], [])).
  { eapply getattr_own; [apply lookup_new|reflexivity]. }
  unfold Skill.upgrade_cost, Skill.downgrade_refund.
  rewrite !(bind_normal _ _ _ _ _ _ Hg). split; reflexivity.
Qed.

Lemma constructor_stores_level_verbatim_witness :
  mro_lookup heap_sub 7 "__init__" = Some (VFunc Skill_init_fn) /\
  ordinary_instances heap_sub 7 = true /\
  assignable heap_sub 7 "level" = true /\
  instantiate (py_call example_user 1) 7 [VInt (-3)] [] heap_sub
  = (Normal (VRef 10), heap_sub ++ [OInstance 7 [("level", VInt (-3))]],
     [mk_inv (VFunc Skill_init_fn) [VRef 10; VInt (-3)] []]) /\
  Skill.upgrade_cost 10 (heap_sub ++ [OInstance 7 [("level", VInt (-3))]])
  = (Normal (VInt (-10)), heap_sub ++ [OInstance 7 [("level", VInt (-3))]], []).
Proof.
  assert (H : mro_lookup heap_sub 7 "__init__" = Some (VFunc Skill_init_fn))
    by (vm_compute; reflexivity).
  assert (Ho : ordinary_instances heap_sub 7 = true) by (vm_compute; reflexivity).
  assert (Ha : assignable heap_sub 7 "level" = true) by (vm_compute; reflexivity).
  split; [exact H|split; [exact Ho|split; [exact Ha|]]].
  destruct (constructor_stores_level_verbatim example_user 0 heap_sub 7 (-3)%Z H Ho Ha)
    as (Hi & _ & Hu & _).
  split; [exact Hi|exact Hu].
Defined.

(** ** Building the registry of a class *)

(** Looking an event name up in a registry under construction: either its
    first entry is found, or the name is new. *)
Lemma ent_find (k : string) (ents : list (string * loc * list value)) :
  (exists pre l xs post,
      ents = pre ++ (k, l, xs) :: post /\
      od_lookup k (ent_dict ents) = Some (VRef l) /\
      od_lookup k (ent_view ents) = Some xs /\
      forall ys, od_set k ys (ent_view ents) = ent_view (pre ++ (k, l, ys) :: post)) \/
  (od_lookup k (ent_dict ents) = None /\
   od_lookup k (ent_view ents) = None /\
   forall l ys, od_set k ys (ent_view ents) = ent_view (ents ++ [(k, l, ys)])).
Proof.
  induction ents as [|[[k' l'] xs'] ents IH].
  - right. repeat split; reflexivity.
  - cbn [ent_dict ent_view map fst snd]. rewrite !od_lookup_cons.
    destruct (String.eqb k k') eqn:E.
    + apply String.eqb_eq in E as <-. left. exists [], l', xs', ents.
      repeat split. intros ys. cbn [od_set]. rewrite String.eqb_refl. reflexivity.
    + destruct IH as [(pre & l & xs & post & -> & Hd & Hv & Hset)|(Hd & Hv & Hset)].
      * left. exists ((k', l', xs') :: pre), l, xs, post.
        repeat split; [exact Hd|exact Hv|].
        intros ys. cbn [od_set]. rewrite E. fold (ent_view (pre ++ (k, l, xs) :: post)).
        rewrite Hset. reflexivity.
      * right. repeat split; [exact Hd|exact Hv|].
        intros l ys. cbn [od_set]. rewrite E. fold (ent_view ents).
        rewrite (Hset l ys). reflexivity.
Qed.

Lemma ent_dict_same pre post (k : string) (l : loc) (xs ys : list value) :
  ent_dict (pre ++ (k, l, ys) :: post) = ent_dict (pre ++ (k, l, xs) :: post).
Proof. unfold ent_dict. rewrite !map_app. reflexivity. Qed.

Lemma ent_locs_same pre post (k : string) (l : loc) (xs ys : list value) :
  ent_locs (pre ++ (k, l, ys) :: post) = ent_locs (pre ++ (k, l, xs) :: post).
Proof. unfold ent_locs. rewrite !map_app. reflexivity. Qed.

(** One pass of the innermost statement of [_SkillMeta.__init__],
    [cls._event_callbacks[event_name].append(f)]. *)
Lemma register_step (w0 : heap) (c r : loc) ents (w : heap) (k : string) (f : value) :
  building w0 c r ents w ->
  exists ents' w',
    (do ec <- getattr_class c "_event_callbacks";
     do l <- dd_getitem ec k;
     list_append l f) w = (Normal tt, w', []) /\
    building w0 c r ents' w' /\
    ent_view ents' = reg_add (ent_view ents) k f.
Proof.
  intros [Hc Hd Hl Hnd Hfr Hold].
  assert (H1 : getattr_class c "_event_callbacks" w = (Normal (VRef r), w, [])).
  { unfold getattr_class. rewrite (owns_registry_lookup _ _ _ Hc). reflexivity. }
  rewrite (bind_normal _ _ _ _ _ _ H1).
  assert (Hrlt : r < length w) by (eapply lookup_lt_Some; exact Hd).
  apply Forall_cons in Hfr as [Hfc Hfr]. apply Forall_cons in Hfr as [Hfrr Hfl].
  destruct (ent_find k ents)
    as [(pre & l & xs & post & -> & Hkd & Hkv & Hset)|(Hkd & Hkv & Hset)].
  - (* the event name already has its list *)
    assert (Hlx : w !! l = Some (OList xs)).
    { apply Forall_app in Hl as [_ Hl]. apply Forall_cons in Hl as [Hl _]. exact Hl. }
    assert (Hllt : l < length w) by (eapply lookup_lt_Some; exact Hlx).
    assert (H2 : dd_getitem (VRef r) k w = (Normal (VRef l), w, [])).
    { unfold dd_getitem. rewrite Hd, Hkd. reflexivity. }
    rewrite (bind_normal _ _ _ _ _ _ H2).
    exists (pre ++ (k, l, xs ++ [f]) :: post), (<[l := OList (xs ++ [f])]> w).
    split; [|split].
    + unfold list_append, store. rewrite Hlx. reflexivity.
    + assert (Hcl : class_at w l = None) by (unfold class_at; rewrite Hlx; reflexivity).
      constructor.
      * eapply owns_registry_ext; [|exact Hc]. apply class_at_insert; [discriminate|exact Hcl].
      * rewrite list_lookup_insert_ne by (intros ->; congruence).
        rewrite (ent_dict_same _ _ _ _ xs). exact Hd.
      * unfold ent_locs in Hnd. rewrite map_app in Hnd. cbn [map fst snd] in Hnd.
        apply NoDup_app in Hnd as (_ & Hpre & Hpost).
        apply NoDup_cons in Hpost as [Hpost _].
        apply Forall_app in Hl as [Hlpre Hlpost].
        apply Forall_cons in Hlpost as [_ Hlpost].
        apply Forall_app. split; [|apply Forall_cons; split].
        -- apply Forall_forall. intros e He.
           rewrite list_lookup_insert_ne.
           ++ eapply (proj1 (Forall_forall _ _) Hlpre). exact He.
           ++ intros ->. eapply Hpre; [|left].
              apply list_elem_of_fmap. exists e. split; [reflexivity|exact He].
        -- cbn [fst snd]. apply list_lookup_insert_eq. exact Hllt.
        -- apply Forall_forall. intros e He.
           rewrite list_lookup_insert_ne.
           ++ eapply (proj1 (Forall_forall _ _) Hlpost). exact He.
           ++ intros ->. apply Hpost.
              apply list_elem_of_fmap. exists e. split; [reflexivity|exact He].
      * rewrite (ent_locs_same _ _ _ _ xs). exact Hnd.
      * rewrite (ent_locs_same _ _ _ _ xs). repeat (apply Forall_cons; split); assumption.
      * rewrite take_insert_ge; [exact Hold|].
        unfold ent_locs in Hfl. rewrite map_app in Hfl.
        apply Forall_app in Hfl as [_ Hfl]. apply Forall_cons in Hfl as [Hfl _]. exact Hfl.
    + unfold reg_add. rewrite Hkv. cbn [default]. symmetry. apply Hset.
  - (* a new event name: the default factory makes its list *)
    set (D' := ODefaultDict (ent_dict ents ++ [(k, VRef (length w))])).
    assert (H2 : dd_getitem (VRef r) k w
                 = (Normal (VRef (length w)), <[r := D']> w ++ [OList []], [])).
    { unfold dd_getitem. rewrite Hd, Hkd. unfold bind, alloc, store, ret.
      rewrite insert_app_l by exact Hrlt. reflexivity. }
    rewrite (bind_normal _ _ _ _ _ _ H2).
    assert (Hlen : length (<[r := D']> w) = length w) by apply length_insert.
    exists (ents ++ [(k, length w, [f])]), (<[r := D']> w ++ [OList [f]]).
    assert (Hold_lt : forall e, e ∈ ents -> snd (fst e) < length w /\ snd (fst e) <> r).
    { intros e He. pose proof (proj1 (Forall_forall _ _) Hl e He) as Hle.
      cbn beta in Hle. split; [eapply lookup_lt_Some; exact Hle|intros E; rewrite E in Hle; congruence]. }
    split; [|split].
    + assert (H3 : list_append (VRef (length w)) f (<[r := D']> w ++ [OList []])
                   = (Normal tt, <[r := D']> w ++ [OList [f]], [])).
      { unfold list_append, store. rewrite <- Hlen.
        rewrite lookup_new, insert_new. reflexivity. }
      rewrite H3. reflexivity.
    + constructor.
      * eapply owns_registry_ext; [|exact Hc].
        rewrite class_at_app by (repeat constructor; discriminate).
        apply class_at_insert; [discriminate|].
        unfold class_at. rewrite Hd. reflexivity.
      * rewrite lookup_app_l by lia. rewrite list_lookup_insert_eq by exact Hrlt.
        unfold D', ent_dict. rewrite map_app. reflexivity.
      * apply Forall_app. split.
        -- apply Forall_forall. intros e He. destruct (Hold_lt e He) as [Hlt Hne].
           rewrite lookup_app_l by lia. rewrite list_lookup_insert_ne by congruence.
           eapply (proj1 (Forall_forall _ _) Hl). exact He.
        -- apply Forall_singleton. cbn [fst snd]. rewrite <- Hlen. apply lookup_new.
      * unfold ent_locs. rewrite map_app. apply NoDup_app. split; [exact Hnd|split].
        -- intros x Hx. apply list_elem_of_fmap in Hx as (e & -> & He).
           destruct (Hold_lt e He) as [Hlt _]. cbn [map fst snd].
           intros Hin. apply list_elem_of_singleton in Hin. lia.
        -- cbn. apply NoDup_singleton.
      * repeat (apply Forall_cons; split); try assumption.
        unfold ent_locs. rewrite map_app. apply Forall_app. split; [exact Hfl|].
        apply Forall_singleton. cbn [fst snd]. lia.
      * rewrite take_app_le by lia. rewrite take_insert_ge by exact Hfrr. exact Hold.
    + unfold reg_add. rewrite Hkv. cbn [default app]. symmetry. apply Hset.
Qed.

Lemma register_events (w0 : heap) (c r : loc) (f : value) (events : list string) :
  forall ents w,
    building w0 c r ents w ->
    exists ents' w',
      for_each events (fun event_name =>
        do ec <- getattr_class c "_event_callbacks";
        do l <- dd_getitem ec event_name;
        list_append l f) w = (Normal tt, w', []) /\
      building w0 c r ents' w' /\
      ent_view ents' = fold_left (fun m k => reg_add m k f) events (ent_view ents).
Proof.
  induction events as [|k events IH]; intros ents w B.
  - exists ents, w. split; [reflexivity|split; [exact B|reflexivity]].
  - destruct (register_step _ _ _ _ _ k f B) as (ents1 & w1 & Hstep & B1 & Hv1).
    destruct (IH _ _ B1) as (ents2 & w2 & Hrest & B2 & Hv2).
    exists ents2, w2. split; [|split; [exact B2|]].
    + cbn [for_each]. rewrite (bind_normal _ _ _ _ _ _ Hstep), Hrest. reflexivity.
    + cbn [fold_left]. rewrite <- Hv1. exact Hv2.
Qed.

Lemma register_attrs (w0 : heap) (c r : loc) (vals : list value) :
  forall ents w,
    building w0 c r ents w ->
    exists ents' w',
      for_each vals (fun f =>
        match get_events f with
        | None => ret tt
        | Some events =>
            for_each events (fun event_name =>
              do ec <- getattr_class c "_event_callbacks";
              do l <- dd_getitem ec event_name;
              list_append l f)
        end) w = (Normal tt, w', []) /\
      building w0 c r ents' w' /\
      ent_view ents' = fold_left reg_scan vals (ent_view ents).
Proof.
  induction vals as [|f vals IH]; intros ents w B.
  - exists ents, w. split; [reflexivity|split; [exact B|reflexivity]].
  - assert (exists ents1 w1,
      match get_events f with
      | None => ret tt
      | Some events =>
          for_each events (fun event_name =>
            do ec <- getattr_class c "_event_callbacks";
            do l <- dd_getitem ec event_name;
            list_append l f)
      end w = (Normal tt, w1, []) /\
      building w0 c r ents1 w1 /\ ent_view ents1 = reg_scan (ent_view ents) f)
      as (ents1 & w1 & Hstep & B1 & Hv1).
    { unfold reg_scan. destruct (get_events f) as [events|].
      - apply register_events, B.
      - exists ents, w. split; [reflexivity|split; [exact B|reflexivity]]. }
    destruct (IH _ _ B1) as (ents2 & w2 & Hrest & B2 & Hv2).
    exists ents2, w2. split; [|split; [exact B2|]].
    + cbn [for_each]. rewrite (bind_normal _ _ _ _ _ _ Hstep), Hrest. reflexivity.
    + cbn [fold_left]. rewrite <- Hv1. exact Hv2.
Qed.

(** A class statement either fails in [type.__new__], before anything is
    allocated, or yields a new class that owns a new mapping holding what
    its own body registers. *)
Lemma define_class_spec (name : string) (bases : list loc) (attrs : odict value)
    (w : heap) :
  (exists msg, type_new name bases attrs w = (Raise (TypeError msg), w, []) /\
               define_class name bases attrs w = (Raise (TypeError msg), w, [])) \/
  (exists r ents w',
     define_class name bases attrs w = (Normal (length w), w', []) /\
     building w (length w) r ents w' /\
     ent_view ents = group_events attrs).
Proof.
  assert (Hnew : (exists msg, type_new name bases attrs w = (Raise (TypeError msg), w, [])) \/
                 (exists tail, type_new name bases attrs w
                    = (Normal (length w),
                       w ++ [OClass (mk_class name (class_qualname name attrs) bases (length w :: tail)
                   (class_namespace attrs))], []))).
  { unfold type_new.
    destruct (mapM _ bases) as [mros|]; [|eauto].
    destruct (c3_linearise _) as [tail|]; [|eauto].
    right. exists tail. reflexivity. }
  unfold define_class.
  destruct Hnew as [[e Hnew]|[tail Hnew]].
  - left. exists e. split; [exact Hnew|].
    rewrite (bind_raise _ _ _ _ _ _ Hnew). reflexivity.
  - right.
    set (k0 := mk_class name (class_qualname name attrs) bases (length w :: tail)
                   (class_namespace attrs)) in *.
    set (k1 := mk_class name (class_qualname name attrs) bases (length w :: tail)
                 (od_set "_event_callbacks" (VRef (S (length w)))
                    (class_namespace attrs))).
    assert (B : building w (length w) (S (length w)) []
                  (w ++ [OClass k1; ODefaultDict []])).
    { constructor.
      - exists k1. unfold class_at. rewrite lookup_new.
        split; [reflexivity|split; [reflexivity|apply od_lookup_set_eq]].
      - apply lookup_new_next.
      - constructor.
      - constructor.
      - repeat constructor; lia.
      - apply take_app_length. }
    destruct (register_attrs _ _ _ (od_values attrs) _ _ B)
      as (ents & w' & Hloop & B' & Hv).
    exists (S (length w)), ents, w'. split; [|split; [exact B'|exact Hv]].
    assert (Hinit : _SkillMeta.__init__ (length w) name bases attrs (w ++ [OClass k0])
                    = (Normal tt, w', [])).
    { unfold _SkillMeta.__init__, _SkillMeta.type_init.
      unfold bind at 1. cbn [ret].
      assert (Hd : new_defaultdict (w ++ [OClass k0])
                   = (Normal (VRef (S (length w))), w ++ [OClass k0; ODefaultDict []], [])).
      { unfold new_defaultdict, bind, alloc, ret.
        rewrite length_app, <- app_assoc. cbn. rewrite Nat.add_1_r. reflexivity. }
      rewrite (bind_normal _ _ _ _ _ _ Hd).
      assert (Hs : setattr_class (length w) "_event_callbacks" (VRef (S (length w)))
                     (w ++ [OClass k0; ODefaultDict []])
                   = (Normal tt, w ++ [OClass k1; ODefaultDict []], [])).
      { unfold setattr_class, class_at, store. rewrite lookup_new, insert_new.
        reflexivity. }
      rewrite (bind_normal _ _ _ _ _ _ Hs), Hloop. reflexivity. }
    rewrite (bind_normal _ _ _ _ _ _ Hnew), (bind_normal _ _ _ _ _ _ Hinit).
    reflexivity.
Qed.

(** The mapping a class under construction is seen to hold. *)
Lemma building_view (w0 : heap) (c r : loc) ents (w : heap) :
  building w0 c r ents w -> event_callbacks w c = Some (ent_view ents).
Proof.
  intros [Hc Hd Hl _ _ _]. unfold event_callbacks, registry_ref.
  rewrite (owns_registry_lookup _ _ _ Hc). unfold dict_view. rewrite Hd.
  apply mapM_Some. clear Hd.
  induction Hl as [|[[k l] xs] ents Hk _ IH]; [constructor|].
  cbn [ent_dict ent_view map fst snd]. constructor; [|exact IH].
  cbn [fst snd resolve_list] in *. rewrite Hk. reflexivity.
Qed.

(** ** The registry of a class and inheritance *)

(** C1, amended. The mapping of a newly defined class holds what its own
    body registers and nothing else, whatever its bases hold: under each
    event name, the callbacks the body tags with it, in body order.
    Dispatch on an instance of the class calls the callbacks of that body,
    and only them, when they return normally and leave the list of the
    event as it is.  The body is one of functions, descriptors and
    constants. *)
Theorem class_registry_is_own_body
    (name : string) (bases : list loc) (attrs : odict value)
    (w w' : heap) (c : loc) (log : list invocation) :
  plain_body attrs = true ->
  define_class name bases attrs w = (Normal c, w', log) ->
  event_callbacks w' c = Some (group_events attrs) /\
  (forall e, default [] (od_lookup e (group_events attrs)) = declared_for e attrs) /\
  (forall call self d e kw w2 w3,
     event_callbacks w2 c = Some (group_events attrs) ->
     w2 !! self = Some (OInstance c d) ->
     od_lookup "_event_callbacks" d = None ->
     all_return call self kw (callback_list w2 self e) (declared_for e attrs) w2 w3 ->
     Skill.execute_callbacks call self e kw w2
     = (Normal VNone, w3, map (dispatched self kw) (declared_for e attrs))).
Proof.
  intros _ Hdef.
  destruct (define_class_spec name bases attrs w)
    as [(e & _ & He)|(r & ents & w1 & Hok & B & Hv)]; [congruence|].
  rewrite Hok in Hdef. injection Hdef as <- <- <-.
  split; [|split].
  - rewrite (building_view _ _ _ _ _ B), Hv. reflexivity.
  - apply group_events_lookup.
  - intros call self d e kw w2 w3 Hm Hself Hd Hall.
    pose proof (callbacks_for_instance _ _ _ _ _ e Hself Hd Hm) as Hcb.
    rewrite group_events_lookup in Hcb.
    destruct (execute_callbacks_loop call self e kw w2 _ Hcb)
      as [(_ & Hnil & ->)|(l & Hlst & Hl & ->)].
    + rewrite Hnil in Hall. inversion Hall. rewrite Hnil. reflexivity.
    + cbv zeta. rewrite Hlst in Hall.
      rewrite (loop_all_return _ _ _ _ _ _ _ Hl Hall). reflexivity.
Qed.

Lemma class_registry_is_own_body_witness :
  plain_body Bonus_Health_Plus_body = true /\
  define_class "Bonus_Health_Plus" [4] Bonus_Health_Plus_body heap_base
    = (Normal 7, heap_sub, []) /\
  event_callbacks heap_sub 7 = Some (group_events Bonus_Health_Plus_body).
Proof.
  assert (H : define_class "Bonus_Health_Plus" [4] Bonus_Health_Plus_body heap_base
              = (Normal 7, heap_sub, [])) by (vm_compute; reflexivity).
  split; [reflexivity|split; [exact H|]].
  exact (proj1 (class_registry_is_own_body "Bonus_Health_Plus" [4]
                  Bonus_Health_Plus_body heap_base heap_sub 7 [] eq_refl H)).
Defined.

(** C1 as stated fails: [Bonus_Health_Plus] adds a second callback for
    ["player_spawn"] and overrides nothing, yet its mapping holds the new
    callback alone, and dispatching the event on its instance calls the new
    callback and not the inherited one. *)
Lemma subclass_registry_drops_base_callbacks :
  ~ inherits_callbacks heap_play 7 4 /\
  event_callbacks heap_play 4 = Some [("player_spawn", [VFunc give_health])] /\
  event_callbacks heap_play 7 = Some [("player_spawn", [VFunc give_more])] /\
  calls (Skill.execute_callbacks (py_call example_user 1) 10 "player_spawn"
           [("player", VRef 12)] heap_play)
  = [dispatched 10 [("player", VRef 12)] (VFunc give_more)].
Proof.
  assert (Hb : event_callbacks heap_play 4 = Some [("player_spawn", [VFunc give_health])])
    by (vm_compute; reflexivity).
  assert (Hc : event_callbacks heap_play 7 = Some [("player_spawn", [VFunc give_more])])
    by (vm_compute; reflexivity).
  split; [|split; [exact Hb|split; [exact Hc|vm_compute; reflexivity]]].
  intros H.
  destruct (H _ "player_spawn" _ Hb eq_refl) as (mc & cbs_c & Hmc & Hl & [k Hk]).
  rewrite Hc in Hmc. injection Hmc as <-.
  injection Hl as <-. discriminate Hk.
Qed.

(** ** Declaring a callback for no event *)



(** ** The tick of a TickRepeatSkill *)




(** ** Which heap objects a registry depends on *)

(** The mapping of a class is read from the class object and from the
    objects of its footprint only. *)
Lemma view_agree (w w2 : heap) (c r : loc) :
  owns_registry w c r ->
  (forall l, l ∈ c :: registry_footprint w c -> w2 !! l = w !! l) ->
  owns_registry w2 c r /\
  event_callbacks w2 c = event_callbacks w c /\
  registry_footprint w2 c = registry_footprint w c.
Proof.
  intros Hc Hagree.
  assert (Hcls : class_at w2 c = class_at w c).
  { unfold class_at. rewrite Hagree by left. reflexivity. }
  pose proof (owns_registry_ext _ _ _ _ Hcls Hc) as Hc2.
  split; [exact Hc2|].
  revert Hagree. unfold event_callbacks, registry_footprint, registry_ref.
  rewrite (owns_registry_lookup _ _ _ Hc), (owns_registry_lookup _ _ _ Hc2).
  intros Hagree. unfold dict_view.
  rewrite (Hagree r) by (right; left).
  destruct (w !! r) as [[| |es| |]|]; try (split; reflexivity).
  split; [|reflexivity].
  apply Forall_mapM_ext, Forall_forall. intros [k v] Hkv.
  cbn [fst snd]. destruct v as [| | | | | | |l]; try reflexivity.
  cbn [resolve_list]. rewrite Hagree; [reflexivity|].
  right. right. apply list_elem_of_omap. exists (k, VRef l). split; [exact Hkv|reflexivity].
Qed.

(** A class that shows a mapping has its class object, its dictionary and
    its lists allocated, each an object of the expected kind. *)
Lemma footprint_objects (w : heap) (c r : loc) (m : odict (list value)) :
  owns_registry w c r -> event_callbacks w c = Some m ->
  forall l, l ∈ c :: registry_footprint w c ->
    exists o, w !! l = Some o /\ is_registry_object o.
Proof.
  intros Hc Hm l Hl.
  unfold event_callbacks, registry_footprint, registry_ref in *.
  rewrite (owns_registry_lookup _ _ _ Hc) in *.
  apply elem_of_cons in Hl as [->|Hl].
  { destruct Hc as (k & Hk & _). unfold class_at in Hk.
    destruct (w !! c) as [[]|]; try discriminate. eexists. split; [reflexivity|exact I]. }
  unfold dict_view in Hm.
  destruct (w !! r) as [[| |es| |]|] eqn:Hr; try discriminate.
  apply elem_of_cons in Hl as [->|Hl].
  { eexists. split; [exact Hr|exact I]. }
  apply list_elem_of_omap in Hl as ([k v] & Hkv & Hv).
  cbn [snd] in Hv. destruct v as [| | | | | | |l']; try discriminate.
  injection Hv as ->.
  apply mapM_Some in Hm.
  apply list_elem_of_lookup in Hkv as [i Hi].
  destruct (Forall2_lookup_l _ _ _ _ _ Hm Hi) as (y & _ & Hy).
  cbn [fst snd resolve_list] in Hy.
  destruct (w !! l) as [[| | |xs|]|]; try discriminate.
  eexists. split; [reflexivity|exact I].
Qed.

(** The objects of a mapping are allocated and are not classes. *)
Lemma footprint_not_class (w : heap) (c r : loc) (m : odict (list value)) :
  owns_registry w c r -> event_callbacks w c = Some m ->
  forall l, l ∈ registry_footprint w c -> l < length w /\ class_at w l = None.
Proof.
  intros Hc Hm l Hl.
  unfold event_callbacks, registry_footprint, registry_ref in *.
  rewrite (owns_registry_lookup _ _ _ Hc) in *.
  unfold dict_view in Hm.
  destruct (w !! r) as [[| |es| |]|] eqn:Hr; try discriminate.
  apply elem_of_cons in Hl as [->|Hl].
  { split; [eapply lookup_lt_Some; exact Hr|unfold class_at; rewrite Hr; reflexivity]. }
  apply list_elem_of_omap in Hl as ([k v] & Hkv & Hv).
  cbn [snd] in Hv. destruct v as [| | | | | | |l']; try discriminate.
  injection Hv as ->.
  apply mapM_Some in Hm.
  apply list_elem_of_lookup in Hkv as [i Hi].
  destruct (Forall2_lookup_l _ _ _ _ _ Hm Hi) as (y & _ & Hy).
  cbn [fst snd resolve_list] in Hy.
  destruct (w !! l) as [[| | |xs|]|] eqn:Hl; try discriminate.
  split; [eapply lookup_lt_Some; exact Hl|unfold class_at; rewrite Hl; reflexivity].
Qed.

(** A heap that retains the classes, dictionaries and lists of [w] keeps
    its registries. *)
Lemma registries_kept_retain (w w' : heap) :
  (forall l o, w !! l = Some o -> is_registry_object o -> w' !! l = Some o) ->
  registries_kept w w'.
Proof.
  intros Hret c r m Hc Hm.
  assert (Hagree : forall l, l ∈ c :: registry_footprint w c -> w' !! l = w !! l).
  { intros l Hl. destruct (footprint_objects _ _ _ _ Hc Hm l Hl) as (o & Ho & Hreg).
    rewrite Ho. apply Hret; assumption. }
  destruct (view_agree _ _ _ _ Hc Hagree) as (Hc' & Hv & _).
  split; [exact Hc'|]. rewrite Hv. exact Hm.
Qed.

Lemma footprint_retain (w w' : heap) (c r : loc) (m : odict (list value)) :
  (forall l o, w !! l = Some o -> is_registry_object o -> w' !! l = Some o) ->
  owns_registry w c r -> event_callbacks w c = Some m ->
  registry_footprint w' c = registry_footprint w c.
Proof.
  intros Hret Hc Hm.
  assert (Hagree : forall l, l ∈ c :: registry_footprint w c -> w' !! l = w !! l).
  { intros l Hl. destruct (footprint_objects _ _ _ _ Hc Hm l Hl) as (o & Ho & Hreg).
    rewrite Ho. apply Hret; assumption. }
  apply (view_agree _ _ _ _ Hc Hagree).
Qed.

Lemma registries_kept_refl (w : heap) : registries_kept w w.
Proof. intros c r m Hc Hm. split; assumption. Qed.

Lemma registries_kept_trans (w1 w2 w3 : heap) :
  registries_kept w1 w2 -> registries_kept w2 w3 -> registries_kept w1 w3.
Proof.
  intros H12 H23 c r m Hc Hm. destruct (H12 c r m Hc Hm) as [Hc2 Hm2].
  apply H23; assumption.
Qed.

Lemma registries_kept_alloc (w : heap) (objs : heap) : registries_kept w (w ++ objs).
Proof.
  apply registries_kept_retain. intros l o Ho _. apply lookup_app_l_Some, Ho.
Qed.

(** Writing an attribute of an instance touches no registry. *)
Lemma registries_kept_instance (w : heap) (l : loc) (c : loc) (d : odict value) (o : obj) :
  w !! l = Some (OInstance c d) -> registries_kept w (<[l := o]> w).
Proof.
  intros Hl. apply registries_kept_retain. intros l' o' Ho' Hreg.
  destruct (decide (l = l')) as [<-|Hne].
  - rewrite Hl in Ho'. injection Ho' as <-. destruct Hreg.
  - rewrite list_lookup_insert_ne by exact Hne. exact Ho'.
Qed.

(** ** Operations keep the registries *)

Lemma keeps_bind {A B} (m : M A) (k : A -> M B) :
  keeps m -> (forall a, keeps (k a)) -> keeps (bind m k).
Proof.
  intros Hm Hk w. specialize (Hm w). unfold bind.
  destruct (m w) as [[[a|e] w1] log1]; [|exact Hm].
  specialize (Hk a w1). destruct (k a w1) as [[r w2] log2].
  eapply registries_kept_trans; [exact Hm|exact Hk].
Qed.

Lemma keeps_ret {A} (a : A) : keeps (ret a).
Proof. intros w. apply registries_kept_refl. Qed.

Lemma keeps_raise {A} (e : exn) : keeps (@raise A e).
Proof. intros w. apply registries_kept_refl. Qed.

Lemma keeps_alloc (o : obj) : keeps (alloc o).
Proof. intros w. apply registries_kept_alloc. Qed.

Lemma keeps_getattr (self : loc) (name : string) : keeps (getattr self name).
Proof.
  intros w. destruct (getattr_pure self name w) as [r ->]. apply registries_kept_refl.
Qed.

Lemma keeps_setattr (self : loc) (name : string) (v : value) :
  keeps (setattr self name v).
Proof.
  intros w. unfold setattr.
  destruct (w !! self) as [[| c d | | |]|] eqn:Hs; try apply registries_kept_refl.
  eapply registries_kept_instance, Hs.
Qed.

Lemma keeps_getattr_super (cell self : loc) (name : string) :
  keeps (getattr_super cell self name).
Proof.
  intros w. unfold getattr_super.
  destruct (w !! self) as [[| c d | | |]|]; try apply registries_kept_refl.
  destruct (super_lookup w c cell name) as [[]|]; apply registries_kept_refl.
Qed.

Lemma keeps_invoke (call : caller) (f : value) (args : list value) (kw : kwargs) :
  caller_keeps call -> keeps (invoke call f args kw).
Proof.
  intros Hcall w. specialize (Hcall f args kw w). unfold invoke.
  destruct (call f args kw w) as [r w']. exact Hcall.
Qed.

Lemma keeps_for_each {A} (xs : list A) (body : A -> M unit) :
  (forall x, keeps (body x)) -> keeps (for_each xs body).
Proof.
  intros Hbody. induction xs as [|x xs IH]; [apply keeps_ret|].
  cbn [for_each]. apply keeps_bind; [apply Hbody|intros _; exact IH].
Qed.

Lemma keeps_py_add (a b : value) : keeps (py_add a b).
Proof. destruct a, b; first [apply keeps_ret|apply keeps_raise]. Qed.

Lemma keeps_py_mul (a b : value) : keeps (py_mul a b).
Proof. destruct a, b; first [apply keeps_ret|apply keeps_raise]. Qed.

Lemma keeps_Skill_init (self : loc) (level : value) : keeps (Skill.__init__ self level).
Proof.
  apply keeps_bind; [apply keeps_setattr|intros _; apply keeps_ret].
Qed.

Lemma keeps_upgrade_cost (self : loc) : keeps (Skill.upgrade_cost self).
Proof.
  apply keeps_bind; [apply keeps_getattr|intros level].
  apply keeps_bind; [apply keeps_py_add|intros next; apply keeps_py_mul].
Qed.

Lemma keeps_downgrade_refund (self : loc) : keeps (Skill.downgrade_refund self).
Proof.
  apply keeps_bind; [apply keeps_getattr|intros level; apply keeps_py_mul].
Qed.

Lemma keeps_list_items (l : value) : keeps (list_items l).
Proof.
  intros w. unfold list_items.
  destruct l as [| | | | | | |r]; try apply registries_kept_refl.
  destruct (w !! r) as [[]|]; apply registries_kept_refl.
Qed.

Lemma keeps_rounds {St} (p : positive) (step : St -> M (option St)) :
  (forall s, keeps (step s)) -> forall s, keeps (rounds p step s).
Proof.
  intros Hstep.
  assert (Hthen : forall (k : St -> M (option St)) r,
            (forall s, keeps (k s)) -> keeps (and_then r k)).
  { intros k [s|] Hk; [apply Hk|apply keeps_ret]. }
  induction p as [p IH|p IH|]; intros s; cbn [rounds].
  - apply keeps_bind; [apply Hstep|intros r]. apply Hthen. intros s1.
    apply keeps_bind; [apply IH|intros r1]. apply Hthen, IH.
  - apply keeps_bind; [apply IH|intros r]. apply Hthen, IH.
  - apply Hstep.
Qed.

Lemma keeps_for_in_list (l : value) (body : value -> M unit) :
  (forall x, keeps (body x)) -> keeps (for_in_list l body).
Proof.
  intros Hbody. unfold for_in_list.
  apply keeps_bind; [apply keeps_list_items|intros xs].
  apply keeps_bind; [|intros _; apply keeps_ret].
  apply keeps_rounds. intros i.
  apply keeps_bind; [apply keeps_list_items|intros now].
  destruct (now !! i) as [x|]; [|apply keeps_ret].
  apply keeps_bind; [apply Hbody|intros _; apply keeps_ret].
Qed.

Lemma keeps_execute_callbacks call self event_name event_args :
  caller_keeps call ->
  keeps (Skill.execute_callbacks call self event_name event_args).
Proof.
  intros Hcall w.
  destruct (execute_callbacks_cases call self event_name event_args w)
    as [[e ->]|[cbs Hcbs]]; [apply registries_kept_refl|].
  destruct (execute_callbacks_loop call self event_name event_args w _ Hcbs)
    as [(_ & _ & ->)|(l & _ & _ & ->)]; [apply registries_kept_refl|].
  cbv zeta. apply (keeps_for_in_list (VRef l)). intros cb.
  apply keeps_bind; [apply keeps_invoke, Hcall|intros _; apply keeps_ret].
Qed.

Lemma keeps_TickRepeat (callback : value) : keeps (TickRepeat callback).
Proof. apply keeps_bind; [apply keeps_alloc|intros t; apply keeps_ret]. Qed.

Lemma keeps_TickRepeatSkill_init call cell self level :
  caller_keeps call -> keeps (TickRepeatSkill.__init__ call cell self level).
Proof.
  intros Hcall.
  apply keeps_bind; [apply keeps_getattr_super|intros super_init].
  apply keeps_bind; [apply keeps_invoke, Hcall|intros _].
  apply keeps_bind; [apply keeps_getattr|intros tick].
  apply keeps_bind; [apply keeps_TickRepeat|intros t].
  apply keeps_bind; [apply keeps_setattr|intros _; apply keeps_ret].
Qed.

Lemma keeps_instantiate call cls args kw :
  caller_keeps call -> keeps (instantiate call cls args kw).
Proof.
  intros Hcall.
  apply keeps_bind; [intros w; apply registries_kept_refl|intros w0].
  destruct (mro_lookup w0 cls "__init__"); [|apply keeps_raise].
  apply keeps_bind; [apply keeps_alloc|intros self].
  apply keeps_bind; [apply keeps_invoke, Hcall|intros r].
  destruct r; first [apply keeps_ret|apply keeps_raise].
Qed.

Lemma keeps_TickRepeat_fire call t :
  caller_keeps call -> keeps (TickRepeat_fire call t).
Proof.
  intros Hcall.
  apply keeps_bind; [intros w; apply registries_kept_refl|intros w0].
  destruct (w0 !! t) as [[]|]; try apply keeps_raise.
  apply keeps_invoke, Hcall.
Qed.

Lemma keeps_run_code user call c args kw :
  user_keeps user -> caller_keeps call -> keeps (run_code user call c args kw).
Proof.
  intros Huser Hcall. destruct c; cbn [run_code].
  - destruct (params_self_level args kw) as [[self level]|];
      [apply keeps_Skill_init|apply keeps_raise].
  - destruct args as [|[] [|]]; try apply keeps_raise.
    destruct kw; [apply keeps_upgrade_cost|apply keeps_raise].
  - destruct args as [|[] [|]]; try apply keeps_raise.
    destruct kw; [apply keeps_downgrade_refund|apply keeps_raise].
  - destruct (params_execute_callbacks args kw) as [[[[] []] event_args]|];
      try apply keeps_raise.
    apply keeps_execute_callbacks, Hcall.
  - destruct (params_self_level args kw) as [[self level]|];
      [apply keeps_TickRepeatSkill_init, Hcall|apply keeps_raise].
  - destruct args as [|[] rest]; apply keeps_raise.
  - destruct args as [|a [|]]; try apply keeps_raise.
    destruct kw; [apply keeps_ret|apply keeps_raise].
  - intros w. specialize (Huser n args kw w).
    destruct (user n args kw w) as [r w']. exact Huser.
Qed.

Lemma py_call_keeps user depth : user_keeps user -> caller_keeps (py_call user depth).
Proof.
  intros Huser. induction depth as [|d IH]; intros f args kw w.
  - apply registries_kept_refl.
  - cbn [py_call].
    destruct f; try apply registries_kept_refl.
    + apply (keeps_run_code user (py_call user d) _ _ _ Huser IH w).
    + apply (keeps_run_code user (py_call user d) _ _ _ Huser IH w).
    + destruct (class_at w l); [|apply registries_kept_refl].
      apply (keeps_instantiate (py_call user d) _ _ _ IH w).
Qed.

Lemma keeps_define_class name bases attrs : keeps (define_class name bases attrs).
Proof.
  intros w.
  destruct (define_class_spec name bases attrs w)
    as [(msg & _ & ->)|(r & ents & w' & -> & B & _)]; [apply registries_kept_refl|].
  apply registries_kept_retain. intros l o Ho _. unfold final. cbn [fst snd].
  rewrite <- (b_old _ _ _ _ _ B) in Ho.
  apply lookup_take_Some in Ho as [Ho _]. exact Ho.
Qed.

Lemma keeps_run_op call op : caller_keeps call -> keeps (run_op call op).
Proof.
  intros Hcall. destruct op; cbn [run_op].
  - apply keeps_bind; [apply keeps_define_class|intros c; apply keeps_ret].
  - apply keeps_instantiate, Hcall.
  - apply keeps_upgrade_cost.
  - apply keeps_downgrade_refund.
  - apply keeps_execute_callbacks, Hcall.
  - apply keeps_TickRepeat_fire, Hcall.
Qed.

Lemma example_user_keeps : user_keeps example_user.
Proof.
  intros n args kw w. unfold example_user.
  destruct n as [|n]; [|apply registries_kept_refl].
  destruct args as [|[] [|]]; try apply registries_kept_refl.
  destruct (od_lookup "player" kw) as [[]|]; try apply registries_kept_refl.
  destruct (w !! l) as [[]|]; try apply registries_kept_refl.
  destruct (w !! l0) as [[| pc pd | | |]|] eqn:Hp; try apply registries_kept_refl.
  destruct (od_lookup "level" dict) as [[]|]; try apply registries_kept_refl.
  destruct (od_lookup "health" pd) as [[]|]; try apply registries_kept_refl.
  cbn [snd]. eapply registries_kept_instance, Hp.
Qed.

(** C8. The mapping of a skill class is built by its class statement and
    stays as it is: whatever operations follow (class statements,
    instantiations, price reads, dispatches of known and unknown events,
    timer triggers), run by the interpreter on user functions that do not
    themselves write to a registry, the class shows the same mapping
    afterwards. *)
Theorem registry_unchanged_by_operations
    (user : user_code) (depth : nat) (ops : list operation)
    (w : heap) (c r : loc) (m : odict (list value)) :
  user_keeps user ->
  owns_registry w c r ->
  event_callbacks w c = Some m ->
  owns_registry (run_ops (py_call user depth) ops w) c r /\
  event_callbacks (run_ops (py_call user depth) ops w) c = Some m.
Proof.
  intros Huser. revert w.
  induction ops as [|op ops IH]; intros w Hc Hm; cbn [run_ops].
  - split; assumption.
  - destruct (keeps_run_op (py_call user depth) op (py_call_keeps user depth Huser)
                w c r m Hc Hm) as [Hc' Hm'].
    apply IH; assumption.
Qed.

Lemma registry_unchanged_by_operations_witness :
  user_keeps example_user /\
  event_callbacks heap_trio 13
    = Some [("player_spawn", [VFunc give_more; VFunc give_health; VFunc give_last])] /\
  event_callbacks
    (run_ops (py_call example_user 1)
       [Op_execute_callbacks 16 "player_spawn" [("player", VRef 12)];
        Op_execute_callbacks 16 "player_death" [];
        Op_execute_callbacks 16 "player_spawn" [];
        Op_upgrade_cost 16;
        Op_define_class "Regeneration" [2] Regeneration_body]
       heap_trio) 13
    = Some [("player_spawn", [VFunc give_more; VFunc give_health; VFunc give_last])].
Proof.
  assert (Hc : owns_registry heap_trio 13 14).
  { eexists. split; [vm_compute; reflexivity|split; reflexivity]. }
  assert (Hm : event_callbacks heap_trio 13
               = Some [("player_spawn", [VFunc give_more; VFunc give_health; VFunc give_last])])
    by (vm_compute; reflexivity).
  split; [exact example_user_keeps|split; [exact Hm|]].
  exact (proj2 (registry_unchanged_by_operations example_user 1 _ heap_trio 13 14 _
                  example_user_keeps Hc Hm)).
Defined.

(** ** Registries of distinct classes *)

(** The mapping a class statement builds consists of objects it allocated
    itself. *)
Lemma building_footprint (w0 : heap) (c r : loc) ents (w : heap) :
  building w0 c r ents w ->
  registry_footprint w c = r :: ent_locs ents /\
  Forall (fun l => length w0 <= l) (registry_footprint w c).
Proof.
  intros [Hc Hd _ _ Hfr _].
  assert (Hfp : registry_footprint w c = r :: ent_locs ents).
  { unfold registry_footprint, registry_ref.
    rewrite (owns_registry_lookup _ _ _ Hc), Hd. f_equal.
    clear. induction ents as [|[[k l] xs] ents IH]; [reflexivity|].
    cbn. f_equal. exact IH. }
  split; [exact Hfp|]. rewrite Hfp.
  apply Forall_cons in Hfr as [_ Hfr]. exact Hfr.
Qed.

Lemma define_class_retains name bases attrs (w w' : heap) (c : loc) log :
  define_class name bases attrs w = (Normal c, w', log) ->
  forall l o, w !! l = Some o -> w' !! l = Some o.
Proof.
  intros Hdef l o Ho.
  destruct (define_class_spec name bases attrs w)
    as [(msg & _ & He)|(r & ents & w1 & Hok & B & _)]; [congruence|].
  rewrite Hok in Hdef. injection Hdef as <- <- <-.
  rewrite <- (b_old _ _ _ _ _ B) in Ho.
  apply lookup_take_Some in Ho as [Ho _]. exact Ho.
Qed.

(** In a heap built by class statements every class shows a mapping, and
    the mappings of two classes share no object. *)
Lemma class_heap_separate (w : heap) (cs : list loc) :
  class_heap w cs ->
  (forall c, c ∈ cs -> exists r m, owns_registry w c r /\ event_callbacks w c = Some m) /\
  (forall c1 c2, c1 ∈ cs -> c2 ∈ cs -> c1 <> c2 ->
     forall l, l ∈ registry_footprint w c1 -> l ∉ registry_footprint w c2).
Proof.
  induction 1 as [|w cs name bases attrs c w' log _ [IHv IHd] Hdef
                  |w w' cs _ [IHv IHd] Hret].
  - split; [intros c Hc; apply elem_of_nil in Hc; contradiction|].
    intros c1 c2 Hc1. apply elem_of_nil in Hc1. contradiction.
  - pose proof (define_class_retains _ _ _ _ _ _ _ Hdef) as Hret.
    destruct (define_class_spec name bases attrs w)
      as [(msg & _ & He)|(r & ents & w1 & Hok & B & _)]; [congruence|].
    rewrite Hok in Hdef. injection Hdef as <- <- <-.
    destruct (building_footprint _ _ _ _ _ B) as [_ Hfresh].
    assert (Hold : forall c0, c0 ∈ cs ->
              (exists r0 m0, owns_registry w1 c0 r0 /\ event_callbacks w1 c0 = Some m0) /\
              registry_footprint w1 c0 = registry_footprint w c0 /\
              Forall (fun l => l < length w) (registry_footprint w c0)).
    { intros c0 Hc0. destruct (IHv c0 Hc0) as (r0 & m0 & Ho & Hm).
      split; [|split].
      - exists r0, m0.
        exact (registries_kept_retain w w1 (fun l o Hl _ => Hret l o Hl) c0 r0 m0 Ho Hm).
      - exact (footprint_retain w w1 c0 r0 m0 (fun l o Hl _ => Hret l o Hl) Ho Hm).
      - apply Forall_forall. intros l Hl.
        apply (footprint_not_class _ _ _ _ Ho Hm l Hl). }
    split.
    + intros c0 Hc0. apply elem_of_cons in Hc0 as [->|Hc0].
      * exists r, (ent_view ents). split; [apply (b_class _ _ _ _ _ B)|].
        apply (building_view _ _ _ _ _ B).
      * apply (Hold c0 Hc0).
    + intros c1 c2 Hc1 Hc2 Hne l Hl1 Hl2.
      apply elem_of_cons in Hc1 as [->|Hc1]; apply elem_of_cons in Hc2 as [->|Hc2].
      * congruence.
      * destruct (Hold c2 Hc2) as (_ & Hfp & Hlt). rewrite Hfp in Hl2.
        pose proof (proj1 (Forall_forall _ _) Hfresh l Hl1) as Hge.
        pose proof (proj1 (Forall_forall _ _) Hlt l Hl2) as Hl. cbn beta in *. lia.
      * destruct (Hold c1 Hc1) as (_ & Hfp & Hlt). rewrite Hfp in Hl1.
        pose proof (proj1 (Forall_forall _ _) Hfresh l Hl2) as Hge.
        pose proof (proj1 (Forall_forall _ _) Hlt l Hl1) as Hl. cbn beta in *. lia.
      * destruct (Hold c1 Hc1) as (_ & Hfp1 & _). destruct (Hold c2 Hc2) as (_ & Hfp2 & _).
        rewrite Hfp1 in Hl1. rewrite Hfp2 in Hl2.
        exact (IHd c1 c2 Hc1 Hc2 Hne l Hl1 Hl2).
  - split.
    + intros c Hc. destruct (IHv c Hc) as (r & m & Ho & Hm).
      exists r, m. exact (registries_kept_retain _ _ Hret c r m Ho Hm).
    + intros c1 c2 Hc1 Hc2 Hne l Hl1 Hl2.
      destruct (IHv c1 Hc1) as (r1 & m1 & Ho1 & Hm1).
      destruct (IHv c2 Hc2) as (r2 & m2 & Ho2 & Hm2).
      rewrite (footprint_retain _ _ _ _ _ Hret Ho1 Hm1) in Hl1.
      rewrite (footprint_retain _ _ _ _ _ Hret Ho2 Hm2) in Hl2.
      exact (IHd c1 c2 Hc1 Hc2 Hne l Hl1 Hl2).
Qed.

(** C9. In a heap built by class statements, two distinct classes, be
    they base and subclass or unrelated, own mappings at different
    locations that share no dictionary and no list; overwriting any object
    of the mapping of one leaves the mapping of the other as it was.  The
    objects of the mapping of a class are all allocated by its own class
    statement. *)
Theorem class_registries_do_not_alias
    (w : heap) (cs : list loc) (c1 c2 : loc) :
  class_heap w cs -> c1 ∈ cs -> c2 ∈ cs -> c1 <> c2 ->
  (exists r1 r2, owns_registry w c1 r1 /\ owns_registry w c2 r2 /\ r1 <> r2) /\
  (forall l, l ∈ registry_footprint w c1 -> l ∉ registry_footprint w c2) /\
  (forall l o, l ∈ registry_footprint w c1 ->
     event_callbacks (<[l := o]> w) c2 = event_callbacks w c2) /\
  (forall name bases attrs w0 c w0' log,
     define_class name bases attrs w0 = (Normal c, w0', log) ->
     Forall (fun l => length w0 <= l) (registry_footprint w0' c)).
Proof.
  intros Hheap Hc1 Hc2 Hne.
  destruct (class_heap_separate _ _ Hheap) as [Hv Hd].
  destruct (Hv c1 Hc1) as (r1 & m1 & Ho1 & Hm1).
  destruct (Hv c2 Hc2) as (r2 & m2 & Ho2 & Hm2).
  pose proof (Hd c1 c2 Hc1 Hc2 Hne) as Hdisj.
  assert (Hhead : forall c r, owns_registry w c r -> r ∈ registry_footprint w c).
  { intros c r Ho. unfold registry_footprint, registry_ref.
    rewrite (owns_registry_lookup _ _ _ Ho). left. }
  split; [|split; [exact Hdisj|split]].
  - exists r1, r2. split; [exact Ho1|split; [exact Ho2|]].
    intros ->. exact (Hdisj r2 (Hhead _ _ Ho1) (Hhead _ _ Ho2)).
  - intros l o Hl.
    apply (view_agree w (<[l := o]> w) c2 r2 Ho2).
    intros l' Hl'. apply list_lookup_insert_ne. intros ->.
    apply elem_of_cons in Hl' as [->|Hl'].
    + destruct (footprint_not_class _ _ _ _ Ho1 Hm1 _ Hl) as [_ Hnc].
      destruct Ho2 as (k & Hk & _). congruence.
    + exact (Hdisj _ Hl Hl').
  - intros name bases attrs w0 c w0' log Hdef.
    destruct (define_class_spec name bases attrs w0)
      as [(msg & _ & He)|(r & ents & w1 & Hok & B & _)]; [congruence|].
    rewrite Hok in Hdef. injection Hdef as <- <- <-.
    apply (building_footprint _ _ _ _ _ B).
Qed.

Lemma class_registries_do_not_alias_witness :
  class_heap heap_sub [7; 4; 2; 0] /\
  registry_footprint heap_sub 7 = [8; 9] /\
  registry_footprint heap_sub 4 = [5; 6] /\
  (forall l o, l ∈ registry_footprint heap_sub 7 ->
     event_callbacks (<[l := o]> heap_sub) 4 = event_callbacks heap_sub 4).
Proof.
  assert (H : class_heap heap_sub [7; 4; 2; 0]).
  { apply (class_heap_define heap_base [4; 2; 0] "Bonus_Health_Plus" [4]
             Bonus_Health_Plus_body 7 heap_sub []); [|vm_compute; reflexivity].
    apply (class_heap_define heap_module [2; 0] "Bonus_Health" [0]
             Bonus_Health_body 4 heap_base []); [|vm_compute; reflexivity].
    apply (class_heap_define heap_skill [0] "TickRepeatSkill" [0]
             (TickRepeatSkill_body 2) 2 heap_module []); [|vm_compute; reflexivity].
    apply (class_heap_define [] [] "Skill" [] Skill_body 0 heap_skill []);
      [|vm_compute; reflexivity].
    apply class_heap_empty. }
  split; [exact H|].
  split; [vm_compute; reflexivity|].
  split; [vm_compute; reflexivity|].
  refine (proj1 (proj2 (proj2 (class_registries_do_not_alias heap_sub [7; 4; 2; 0] 7 4
             H _ _ _)))).
  - apply elem_of_cons. left. reflexivity.
  - apply elem_of_cons. right. apply elem_of_cons. left. reflexivity.
  - discriminate.
Defined.

(** * Further properties *)

(** ** Class objects under a class statement *)

Lemma keeps_class_objects_bind {A B} (m : M A) (k : A -> M B) :
  keeps_class_objects m -> (forall a, keeps_class_objects (k a)) ->
  keeps_class_objects (bind m k).
Proof.
  intros Hm Hk w l c Hl. specialize (Hm w l c Hl). unfold bind.
  destruct (m w) as [[[a|e] w1] log1]; [|exact Hm].
  specialize (Hk a w1 l c Hm). destruct (k a w1) as [[r w2] log2]. exact Hk.
Qed.

Lemma keeps_class_objects_ret {A} (a : A) : keeps_class_objects (ret a).
Proof. intros w l c Hl. exact Hl. Qed.

Lemma keeps_class_objects_for_each {A} (xs : list A) (body : A -> M unit) :
  (forall x, keeps_class_objects (body x)) -> keeps_class_objects (for_each xs body).
Proof.
  intros Hbody. induction xs as [|x xs IH]; [apply keeps_class_objects_ret|].
  cbn [for_each]. apply keeps_class_objects_bind; [apply Hbody|intros _; exact IH].
Qed.

Lemma keeps_class_objects_getattr_class (c : loc) (name : string) :
  keeps_class_objects (getattr_class c name).
Proof.
  intros w l k Hl. unfold getattr_class.
  destruct (mro_lookup w c name); exact Hl.
Qed.

Lemma keeps_class_objects_dd_getitem (d : value) (key : string) :
  keeps_class_objects (dd_getitem d key).
Proof.
  intros w l k Hl. unfold dd_getitem.
  destruct d as [| | | | | | |r]; try exact Hl.
  destruct (w !! r) as [[| |es| |]|] eqn:Hr; try exact Hl.
  destruct (od_lookup key es); [exact Hl|].
  unfold bind, alloc, store, ret, final. cbn [fst snd].
  rewrite list_lookup_insert_ne by (intros ->; congruence).
  apply lookup_app_l_Some, Hl.
Qed.

Lemma keeps_class_objects_list_append (l0 x : value) :
  keeps_class_objects (list_append l0 x).
Proof.
  intros w l k Hl. unfold list_append.
  destruct l0 as [| | | | | | |r]; try exact Hl.
  destruct (w !! r) as [[| | |xs|]|] eqn:Hr; try exact Hl.
  unfold store, final. cbn [fst snd].
  rewrite list_lookup_insert_ne by (intros ->; congruence). exact Hl.
Qed.

(** The scan of a class body leaves every class object alone. *)
Lemma keeps_class_objects_scan (c : loc) (vals : list value) :
  keeps_class_objects
    (for_each vals (fun f =>
       match get_events f with
       | None => ret tt
       | Some events =>
           for_each events (fun event_name =>
             do ec <- getattr_class c "_event_callbacks";
             do l <- dd_getitem ec event_name;
             list_append l f)
       end)).
Proof.
  apply keeps_class_objects_for_each. intros f.
  destruct (get_events f) as [events|]; [|apply keeps_class_objects_ret].
  apply keeps_class_objects_for_each. intros e.
  apply keeps_class_objects_bind; [apply keeps_class_objects_getattr_class|intros ec].
  apply keeps_class_objects_bind; [apply keeps_class_objects_dd_getitem|intros l].
  apply keeps_class_objects_list_append.
Qed.

(** What [type.__new__] does: it rejects the bases, or allocates the class
    with the linearised resolution order. *)
Lemma type_new_cases (name : string) (bases : list loc) (attrs : odict value) (w : heap) :
  (exists msg, type_new name bases attrs w = (Raise (TypeError msg), w, []) /\
     (mapM (fun b => cls_mro <$> class_at w b) bases ≫=
        (fun mros => c3_linearise (mros ++ [bases]))) = None) \/
  (exists tail,
     (mapM (fun b => cls_mro <$> class_at w b) bases ≫=
        (fun mros => c3_linearise (mros ++ [bases]))) = Some tail /\
     type_new name bases attrs w
     = (Normal (length w),
        w ++ [OClass (mk_class name (class_qualname name attrs) bases (length w :: tail)
                   (class_namespace attrs))], [])).
Proof.
  unfold type_new.
  destruct (mapM _ bases) as [mros|]; cbn; [|left; eauto].
  destruct (c3_linearise _) as [tail|]; [|left; eauto].
  right. exists tail. split; reflexivity.
Qed.

(** The namespace of a class and its body. *)
Lemma od_lookup_remove {V} (k q : string) (d : odict V) :
  od_lookup k (List.filter (fun kv => negb (String.eqb q (fst kv))) d)
  = if String.eqb q k then None else od_lookup k d.
Proof.
  induction d as [|[k' v'] d IH]; [destruct (String.eqb q k); reflexivity|].
  cbn [List.filter fst]. destruct (String.eqb q k') eqn:Eq; cbn [negb].
  - rewrite IH. apply String.eqb_eq in Eq as <-.
    rewrite od_lookup_cons. rewrite (String.eqb_sym k q).
    destruct (String.eqb q k); reflexivity.
  - rewrite !od_lookup_cons. destruct (String.eqb k k') eqn:Ek.
    + apply String.eqb_eq in Ek as <-. rewrite Eq. reflexivity.
    + exact IH.
Qed.

Lemma od_lookup_app {V} (k : string) (d1 d2 : odict V) :
  od_lookup k (d1 ++ d2)
  = match od_lookup k d1 with Some v => Some v | None => od_lookup k d2 end.
Proof.
  induction d1 as [|[k' v'] d1 IH]; [reflexivity|].
  cbn [app]. rewrite !od_lookup_cons.
  destruct (String.eqb k k'); [reflexivity|exact IH].
Qed.

Lemma class_namespace_lookup (a : string) (attrs : odict value) :
  a <> "__doc__" -> a <> "__qualname__" ->
  od_lookup a (class_namespace attrs) = od_lookup a attrs.
Proof.
  intros Hdoc Hq. unfold class_namespace. cbv zeta.
  assert (Hrem : od_lookup a (List.filter
                    (fun kv => negb (String.eqb "__qualname__" (fst kv))) attrs)
                 = od_lookup a attrs).
  { rewrite od_lookup_remove.
    destruct (String.eqb_spec "__qualname__" a) as [E|_]; [congruence|reflexivity]. }
  destruct (od_contains "__doc__" _); [exact Hrem|].
  rewrite od_lookup_app, Hrem.
  destruct (od_lookup a attrs); [reflexivity|].
  rewrite od_lookup_cons.
  destruct (String.eqb_spec a "__doc__") as [E|_]; [congruence|reflexivity].
Qed.

(** The namespace of a class always binds [__doc__]: to the docstring of
    the body, and to [None] when the body has none. *)
Lemma class_namespace_doc (attrs : odict value) :
  od_lookup "__doc__" (class_namespace attrs)
  = Some (default VNone (od_lookup "__doc__" attrs)).
Proof.
  unfold class_namespace, od_contains. cbv zeta.
  assert (Hrem : od_lookup "__doc__" (List.filter
                    (fun kv => negb (String.eqb "__qualname__" (fst kv))) attrs)
                 = od_lookup "__doc__" attrs)
    by (rewrite od_lookup_remove; reflexivity).
  destruct (od_lookup "__doc__" (List.filter _ attrs)) as [v|] eqn:E.
  - rewrite E, <- Hrem. reflexivity.
  - rewrite od_lookup_app, E, <- Hrem. reflexivity.
Qed.

Lemma rebound_name_false (a : string) :
  rebound_name a = false ->
  a <> "_event_callbacks" /\ a <> "__doc__" /\ a <> "__qualname__".
Proof.
  unfold rebound_name. intros H.
  apply orb_false_elim in H as [H Hq]. apply orb_false_elim in H as [He Hd].
  repeat split; intros ->; discriminate.
Qed.

(** The class object a successful class statement leaves: name, bases and
    resolution order from [type.__new__], and the namespace made from the
    body, with [_event_callbacks] bound (or rebound) to the new mapping. *)
Lemma define_class_object (name : string) (bases : list loc) (attrs : odict value)
    (w w' : heap) (c : loc) (log : list invocation) :
  define_class name bases attrs w = (Normal c, w', log) ->
  c = length w /\
  exists tail,
    (mapM (fun b => cls_mro <$> class_at w b) bases ≫=
       (fun mros => c3_linearise (mros ++ [bases]))) = Some tail /\
    class_at w' c
    = Some (mk_class name (class_qualname name attrs) bases (c :: tail)
              (od_set "_event_callbacks" (VRef (S c)) (class_namespace attrs))).
Proof.
  intros Hdef.
  destruct (type_new_cases name bases attrs w) as [(msg & Hnew & _)|(tail & Htail & Hnew)].
  { unfold define_class in Hdef. rewrite (bind_raise _ _ _ _ _ _ Hnew) in Hdef.
    discriminate. }
  set (k0 := mk_class name (class_qualname name attrs) bases (length w :: tail)
                   (class_namespace attrs)) in *.
  set (k1 := mk_class name (class_qualname name attrs) bases (length w :: tail)
               (od_set "_event_callbacks" (VRef (S (length w)))
                  (class_namespace attrs))).
  set (scan := for_each (od_values attrs) (fun f =>
       match get_events f with
       | None => ret tt
       | Some events =>
           for_each events (fun event_name =>
             do ec <- getattr_class (length w) "_event_callbacks";
             do l <- dd_getitem ec event_name;
             list_append l f)
       end)).
  assert (Hinit : _SkillMeta.__init__ (length w) name bases attrs (w ++ [OClass k0])
                  = (out (scan (w ++ [OClass k1; ODefaultDict []])),
                     final (scan (w ++ [OClass k1; ODefaultDict []])),
                     calls (scan (w ++ [OClass k1; ODefaultDict []])))).
  { unfold _SkillMeta.__init__, _SkillMeta.type_init.
    unfold bind at 1. cbn [ret].
    assert (Hd : new_defaultdict (w ++ [OClass k0])
                 = (Normal (VRef (S (length w))), w ++ [OClass k0; ODefaultDict []], [])).
    { unfold new_defaultdict, bind, alloc, ret.
      rewrite length_app, <- app_assoc. cbn. rewrite Nat.add_1_r. reflexivity. }
    rewrite (bind_normal _ _ _ _ _ _ Hd).
    assert (Hs : setattr_class (length w) "_event_callbacks" (VRef (S (length w)))
                   (w ++ [OClass k0; ODefaultDict []])
                 = (Normal tt, w ++ [OClass k1; ODefaultDict []], [])).
    { unfold setattr_class, class_at, store. rewrite lookup_new, insert_new.
      reflexivity. }
    rewrite (bind_normal _ _ _ _ _ _ Hs). fold scan.
    destruct (scan (w ++ [OClass k1; ODefaultDict []])) as [[r w2] log2].
    reflexivity. }
  pose proof (keeps_class_objects_scan (length w) (od_values attrs)
                (w ++ [OClass k1; ODefaultDict []]) (length w) k1 (lookup_new _ _ _))
    as Hkeep.
  fold scan in Hkeep.
  unfold define_class in Hdef.
  rewrite (bind_normal _ _ _ _ _ _ Hnew) in Hdef.
  destruct (scan (w ++ [OClass k1; ODefaultDict []])) as [[[[]|e] w2] log2] eqn:Hscan.
  - rewrite (bind_normal _ _ _ _ _ _ Hinit) in Hdef.
    cbn in Hdef. injection Hdef as <- <- <-.
    split; [reflexivity|]. exists tail. split; [exact Htail|].
    unfold class_at. cbn in Hkeep. rewrite Hkeep. reflexivity.
  - rewrite (bind_raise _ _ _ _ _ _ Hinit) in Hdef. discriminate.
Qed.

(** ** Single inheritance *)

Lemma existsb_eqb_notin (x : loc) (l : list loc) :
  x ∉ l -> existsb (Nat.eqb x) l = false.
Proof.
  induction l as [|y l IH]; intros Hx; [reflexivity|].
  cbn. apply not_elem_of_cons in Hx as [Hne Hx].
  rewrite (proj2 (Nat.eqb_neq x y) Hne). apply IH, Hx.
Qed.

Lemma c3_merge_single (l : list loc) :
  NoDup l -> forall fuel, length l <= fuel -> c3_merge fuel [l] = Some l.
Proof.
  induction 1 as [|x l Hx _ IH]; intros fuel Hfuel.
  - destruct fuel; reflexivity.
  - destruct fuel as [|fuel]; [cbn in Hfuel; lia|].
    cbn [c3_merge List.filter nonempty c3_pick existsb in_tail].
    rewrite (existsb_eqb_notin _ _ Hx). cbn [orb map c3_drop].
    rewrite Nat.eqb_refl, IH by (cbn in Hfuel; lia). reflexivity.
Qed.

(** The linearisation for one base whose own order is well formed: the
    order of the base. *)
Lemma c3_single_base (b : loc) (t : list loc) :
  NoDup (b :: t) -> c3_linearise ([b :: t] ++ [[b]]) = Some (b :: t).
Proof.
  intros Hnd. apply NoDup_cons in Hnd as [Hb Ht].
  assert (Hstep : forall fuel,
            c3_merge (S fuel) [b :: t; [b]] = cons b <$> c3_merge fuel [t; []]).
  { intros fuel. cbn [c3_merge List.filter nonempty c3_pick existsb in_tail].
    rewrite (existsb_eqb_notin _ _ Hb). cbn [orb map c3_drop].
    rewrite Nat.eqb_refl. reflexivity. }
  assert (Hsame : forall fuel, c3_merge fuel [t; []] = c3_merge fuel [t]).
  { intros [|fuel]; destruct t; reflexivity. }
  unfold c3_linearise. cbn [app concat length].
  rewrite length_app. cbn [length]. rewrite Nat.add_1_r.
  rewrite Hstep, Hsame, c3_merge_single by (auto; lia). reflexivity.
Qed.

Lemma class_wf_lt (w : heap) (c : loc) :
  is_Some (class_at w c) -> c < length w.
Proof.
  intros [k Hk]. unfold class_at in Hk.
  destruct (w !! c) eqn:Hc; [|discriminate]. eapply lookup_lt_Some, Hc.
Qed.

Lemma class_at_retain (w w' : heap) (c : loc) (k : class_obj) :
  (forall l o, w !! l = Some o -> w' !! l = Some o) ->
  class_at w c = Some k -> class_at w' c = Some k.
Proof.
  intros Hret Hk. unfold class_at in *.
  destruct (w !! c) as [[k0| | | |]|] eqn:Hc; try discriminate.
  rewrite (Hret _ _ Hc). exact Hk.
Qed.

(** Along an order made of classes of [w], lookups in a heap that retains
    the objects of [w] are those in [w]. *)
Lemma lookup_along_retain (w w' : heap) (mro : list loc) (name : string) :
  (forall l o, w !! l = Some o -> w' !! l = Some o) ->
  Forall (fun x => is_Some (class_at w x)) mro ->
  lookup_along w' mro name = lookup_along w mro name.
Proof.
  intros Hret. induction 1 as [|x mro [k Hk] _ IH]; [reflexivity|].
  cbn [lookup_along]. unfold class_dict_lookup.
  rewrite (class_at_retain _ _ _ _ Hret Hk), Hk, IH. reflexivity.
Qed.

Lemma class_wf_retain (w w' : heap) (c : loc) :
  (forall l o, w !! l = Some o -> w' !! l = Some o) ->
  class_wf w c -> class_wf w' c.
Proof.
  intros Hret (k & Hk & Hhd & Hnd & Hall). exists k.
  split; [eapply class_at_retain; eauto|split; [exact Hhd|split; [exact Hnd|]]].
  eapply Forall_impl; [exact Hall|]. intros x [kx Hx].
  exists kx. eapply class_at_retain; eauto.
Qed.

(** A class statement with one well-formed base succeeds.  The new class
    is well formed; its resolution order is itself followed by that of
    the base; every attribute but [_event_callbacks], [__doc__] and
    [__qualname__] resolves to the body of the class first and to the base
    otherwise. *)
Lemma define_class_single_base (name : string) (b : loc) (attrs : odict value)
    (w : heap) :
  class_wf w b ->
  exists w' kb,
    define_class name [b] attrs w = (Normal (length w), w', []) /\
    class_at w b = Some kb /\
    class_at w' (length w)
    = Some (mk_class name (class_qualname name attrs) [b] (length w :: cls_mro kb)
              (od_set "_event_callbacks" (VRef (S (length w)))
                 (class_namespace attrs))) /\
    (forall l o, w !! l = Some o -> w' !! l = Some o) /\
    class_wf w' (length w) /\
    (forall a, rebound_name a = false ->
       mro_lookup w' (length w) a
       = match od_lookup a attrs with
         | Some v => Some v
         | None => mro_lookup w b a
         end).
Proof.
  intros (kb & Hkb & Hhd & Hnd & Hall).
  destruct (cls_mro kb) as [|b' t] eqn:Hmro; [discriminate|].
  injection Hhd as ->.
  assert (Hlin : (mapM (fun b0 => cls_mro <$> class_at w b0) [b] ≫=
                    (fun mros => c3_linearise (mros ++ [[b]]))) = Some (b :: t)).
  { cbn. rewrite Hkb. cbn. rewrite Hmro. apply (c3_single_base b t Hnd). }
  destruct (define_class_spec name [b] attrs w)
    as [(msg & Hnew & _)|(r & ents & w' & Hok & B & _)].
  { destruct (type_new_cases name [b] attrs w) as [(m & _ & Hno)|(tail & _ & Hyes)];
      congruence. }
  destruct (define_class_object _ _ _ _ _ _ _ Hok) as (_ & tail & Htail & Hobj).
  rewrite Hlin in Htail. injection Htail as <-.
  pose proof (define_class_retains _ _ _ _ _ _ _ Hok) as Hret.
  assert (Hall' : Forall (fun x => is_Some (class_at w' x)) (b :: t)).
  { eapply Forall_impl; [exact Hall|]. intros x [kx Hx].
    exists kx. eapply class_at_retain; eauto. }
  exists w', kb. rewrite Hmro.
  split; [exact Hok|split; [exact Hkb|split; [exact Hobj|split; [exact Hret|split]]]].
  - eexists. split; [exact Hobj|]. cbn [cls_mro].
    split; [reflexivity|split].
    + apply NoDup_cons. split; [|exact Hnd].
      intros Hin. pose proof (proj1 (Forall_forall _ _) Hall _ Hin) as Hs.
      apply class_wf_lt in Hs. lia.
    + apply Forall_cons. split; [eexists; exact Hobj|exact Hall'].
  - intros a Ha. unfold mro_lookup at 1. rewrite Hobj. cbn [cls_mro].
    change (lookup_along w' (length w :: b :: t) a)
      with (match class_dict_lookup w' (length w) a with
            | Some v => Some v
            | None => lookup_along w' (b :: t) a
            end).
    unfold class_dict_lookup at 1. rewrite Hobj. cbn [cls_dict].
    destruct (rebound_name_false a Ha) as (Hec & Hdoc & Hq).
    rewrite od_lookup_set_ne by exact Hec.
    rewrite (class_namespace_lookup a attrs Hdoc Hq).
    destruct (od_lookup a attrs); [reflexivity|].
    unfold mro_lookup. rewrite Hkb, Hmro.
    apply lookup_along_retain; assumption.
Qed.

(** ** Tagging and registration *)

Lemma tagged_with_repeat (e : string) (f : func) (names : list string) :
  fn_events f = Some names ->
  tagged_with e (VFunc f)
  = repeat (VFunc f) (length (List.filter (String.eqb e) names)).
Proof.
  intros Hf. unfold tagged_with. cbn [get_events]. rewrite Hf.
  induction (List.filter (String.eqb e) names) as [|x xs IH]; [reflexivity|].
  cbn. rewrite IH. reflexivity.
Qed.


(** The mapping of a class once its class statement has returned. *)
Lemma define_class_view (name : string) (bases : list loc) (attrs : odict value)
    (w w' : heap) (c : loc) (log : list invocation) :
  define_class name bases attrs w = (Normal c, w', log) ->
  event_callbacks w' c = Some (group_events attrs) /\
  exists r, owns_registry w' c r.
Proof.
  intros Hdef.
  destruct (define_class_spec name bases attrs w)
    as [(e & _ & He)|(r & ents & w1 & Hok & B & Hv)]; [congruence|].
  rewrite Hok in Hdef. injection Hdef as <- <- <-.
  split; [rewrite (building_view _ _ _ _ _ B), Hv; reflexivity|].
  exists r. apply (b_class _ _ _ _ _ B).
Qed.


(** X2. Decorators do not accumulate: decorating an already decorated
    callback replaces its event names, so the callback is declared for the
    names of the outer decorator only. *)
Theorem outer_event_callback_replaces_inner
    (callback : func) (inner outer : list string) (w : heap) :
  let g := mk_func (fn_name callback) (fn_code callback) (Some outer) in
  (do g' <- event_callback inner callback; event_callback outer g') w
  = (Normal g, w, []) /\
  event_callback outer callback w = (Normal g, w, []) /\
  forall e, tagged_with e (VFunc g)
            = repeat (VFunc g) (length (List.filter (String.eqb e) outer)).
Proof.
  cbv zeta. split; [reflexivity|split; [reflexivity|]].
  intros e. apply tagged_with_repeat. reflexivity.
Qed.

Lemma od_lookup_set {V} (e k : string) (v : V) (m : odict V) :
  od_lookup e (od_set k v m) = if String.eqb e k then Some v else od_lookup e m.
Proof.
  destruct (String.eqb e k) eqn:E.
  - apply String.eqb_eq in E as ->. apply od_lookup_set_eq.
  - apply String.eqb_neq in E. apply od_lookup_set_ne, E.
Qed.

Lemma od_set_keys {V} (k : string) (v : V) (m : odict V) :
  map fst (od_set k v m)
  = if od_contains k m then map fst m else map fst m ++ [k].
Proof.
  unfold od_contains. induction m as [|[k' v'] m IH]; [reflexivity|].
  cbn [od_set]. rewrite od_lookup_cons.
  destruct (String.eqb k k') eqn:E; [reflexivity|].
  cbn [map fst]. rewrite IH. destruct (od_lookup k m); reflexivity.
Qed.

Lemma od_lookup_None_keys {V} (k : string) (m : odict V) :
  od_lookup k m = None -> k ∉ map fst m.
Proof.
  induction m as [|[k' v'] m IH]; intros H Hin.
  - apply elem_of_nil in Hin. exact Hin.
  - rewrite od_lookup_cons in H. cbn [map fst] in Hin.
    destruct (String.eqb k k') eqn:E; [discriminate|].
    apply elem_of_cons in Hin as [->|Hin].
    + rewrite String.eqb_refl in E. discriminate.
    + exact (IH H Hin).
Qed.

Lemma reg_add_ok (m : odict (list value)) (k : string) (f : value) :
  registry_ok m -> registry_ok (reg_add m k f).
Proof.
  intros [Hnd Hne]. unfold reg_add. split.
  - rewrite od_set_keys. unfold od_contains.
    destruct (od_lookup k m) eqn:Hk; [exact Hnd|].
    apply NoDup_app. split; [exact Hnd|split; [|apply NoDup_singleton]].
    intros x Hx Hin. apply list_elem_of_singleton in Hin as ->.
    exact (od_lookup_None_keys _ _ Hk Hx).
  - intros e xs. rewrite od_lookup_set.
    destruct (String.eqb e k).
    + intros [= <-]. destruct (default [] (od_lookup k m)); discriminate.
    + apply Hne.
Qed.

Lemma group_events_ok (attrs : odict value) : registry_ok (group_events attrs).
Proof.
  unfold group_events.
  assert (H0 : registry_ok (@nil (string * list value))).
  { split; [constructor|]. intros e xs H. discriminate. }
  revert H0. generalize (@nil (string * list value)) as m.
  induction (od_values attrs) as [|f vals IH]; intros m Hm; [exact Hm|].
  cbn [fold_left]. apply IH. unfold reg_scan.
  destruct (get_events f) as [events|]; [|exact Hm].
  revert m Hm. induction events as [|k events IHe]; intros m Hm; [exact Hm|].
  cbn [fold_left]. apply IHe, reg_add_ok, Hm.
Qed.

(** X3. In the mapping a class statement builds from a body of functions,
    descriptors and constants, an event name is a key exactly when the
    class body declares a callback for it: each key occurs once and holds
    the non-empty list of the callbacks declared for it, in body order. *)
Theorem registry_keys_are_declared_events
    (name : string) (bases : list loc) (attrs : odict value)
    (w w' : heap) (c : loc) (log : list invocation) :
  plain_body attrs = true ->
  define_class name bases attrs w = (Normal c, w', log) ->
  exists m,
    event_callbacks w' c = Some m /\
    NoDup (map fst m) /\
    forall e,
      od_lookup e m
      = match declared_for e attrs with
        | [] => None
        | cbs => Some cbs
        end.
Proof.
  intros _ Hdef. destruct (define_class_view _ _ _ _ _ _ _ Hdef) as [Hm _].
  destruct (group_events_ok attrs) as [Hnd Hne].
  exists (group_events attrs). split; [exact Hm|split; [exact Hnd|]].
  intros e. pose proof (group_events_lookup attrs e) as Hl.
  destruct (od_lookup e (group_events attrs)) as [xs|] eqn:Hk; cbn [default] in Hl.
  - rewrite <- Hl. specialize (Hne e xs Hk). destruct xs; [congruence|reflexivity].
  - rewrite <- Hl. reflexivity.
Qed.



(** X5. The metaclass changes one name of the class namespace and no
    other.  After an ordinary class statement (a body of functions,
    descriptors and constants, no slots, no [__init_subclass__] on a
    base):
    [_event_callbacks] is bound to the new mapping even when the class
    body had bound it to something else; [__doc__] is bound to the
    docstring of the body, and to [None] when it has none; every other
    name that does not start with two underscores reads in the namespace
    of the class as the body bound it. *)
Theorem metaclass_rebinds_only_event_callbacks
    (name : string) (bases : list loc) (attrs : odict value)
    (w w' : heap) (c : loc) (log : list invocation) :
  ordinary_statement w bases attrs = true ->
  define_class name bases attrs w = (Normal c, w', log) ->
  class_dict_lookup w' c "_event_callbacks" = Some (VRef (S c)) /\
  w' !! S c <> None /\
  length w <= S c /\
  class_dict_lookup w' c "__doc__" = Some (default VNone (od_lookup "__doc__" attrs)) /\
  forall a, a <> "_event_callbacks" -> special_name a = false ->
    class_dict_lookup w' c a = od_lookup a attrs.
Proof.
  intros _ Hdef.
  destruct (define_class_object _ _ _ _ _ _ _ Hdef) as (Hc & tail & _ & Hobj).
  unfold class_dict_lookup. rewrite Hobj. cbn [cls_dict].
  split; [apply od_lookup_set_eq|split; [|split; [lia|split]]].
  - destruct (define_class_spec name bases attrs w)
      as [(e & _ & He)|(r & ents & w1 & Hok & B & _)]; [congruence|].
    rewrite Hok in Hdef. injection Hdef as <- <- <-.
    destruct (b_class _ _ _ _ _ B) as (k & Hk & _ & Hr).
    rewrite Hobj in Hk. injection Hk as <-. cbn [cls_dict] in Hr.
    rewrite od_lookup_set_eq in Hr. injection Hr as <-.
    rewrite (b_dict _ _ _ _ _ B). discriminate.
  - rewrite od_lookup_set_ne by discriminate. apply class_namespace_doc.
  - intros a Ha Hsp. rewrite od_lookup_set_ne by exact Ha.
    apply class_namespace_lookup; intros ->; discriminate Hsp.
Qed.

Lemma metaclass_rebinds_only_event_callbacks_witness :
  ordinary_statement heap_base [0]
    [("_event_callbacks", VStr "mine"); ("max_level", VInt 3)] = true /\
  define_class "Odd" [0] [("_event_callbacks", VStr "mine"); ("max_level", VInt 3)]
    heap_base
  = (Normal 7,
     final (define_class "Odd" [0]
              [("_event_callbacks", VStr "mine"); ("max_level", VInt 3)] heap_base),
     []) /\
  class_dict_lookup
    (final (define_class "Odd" [0]
              [("_event_callbacks", VStr "mine"); ("max_level", VInt 3)] heap_base))
    7 "_event_callbacks" = Some (VRef 8) /\
  class_dict_lookup
    (final (define_class "Odd" [0]
              [("_event_callbacks", VStr "mine"); ("max_level", VInt 3)] heap_base))
    7 "__doc__" = Some VNone.
Proof.
  assert (H0 : ordinary_statement heap_base [0]
                 [("_event_callbacks", VStr "mine"); ("max_level", VInt 3)] = true)
    by (vm_compute; reflexivity).
  assert (H : define_class "Odd" [0]
                [("_event_callbacks", VStr "mine"); ("max_level", VInt 3)] heap_base
              = (Normal 7,
                 final (define_class "Odd" [0]
                          [("_event_callbacks", VStr "mine"); ("max_level", VInt 3)]
                          heap_base), []))
    by (vm_compute; reflexivity).
  split; [exact H0|split; [exact H|]].
  destruct (metaclass_rebinds_only_event_callbacks "Odd" [0]
              [("_event_callbacks", VStr "mine"); ("max_level", VInt 3)]
              heap_base _ 7 [] H0 H) as (Hec & _ & _ & Hdoc & _).
  split; [exact Hec|exact Hdoc].
Defined.


Lemma registry_keys_are_declared_events_witness :
  plain_body Trio_body = true /\
  define_class "Trio" [4] Trio_body heap_play
    = (Normal 13, final (define_class "Trio" [4] Trio_body heap_play), []) /\
  exists m,
    event_callbacks (final (define_class "Trio" [4] Trio_body heap_play)) 13 = Some m /\
    od_lookup "player_spawn" m
      = Some [VFunc give_more; VFunc give_health; VFunc give_last] /\
    od_lookup "player_death" m = None.
Proof.
  assert (H : define_class "Trio" [4] Trio_body heap_play
              = (Normal 13, final (define_class "Trio" [4] Trio_body heap_play), []))
    by (vm_compute; reflexivity).
  split; [reflexivity|split; [exact H|]].
  destruct (registry_keys_are_declared_events "Trio" [4] Trio_body heap_play _ 13 []
              eq_refl H) as (m & Hm & _ & Hl).
  exists m. split; [exact Hm|]. split; [exact (Hl "player_spawn")|exact (Hl "player_death")].
Defined.

(** ** The level of an instance *)

(** X6. [Skill.__init__] on an existing instance, of a class whose
    instances are accessed the ordinary way and which defines no
    descriptor named [level], binds [level] to the value it is given,
    whatever that value is, and touches nothing else: the level then reads
    back as given, every other attribute of the instance and every other
    object of the heap is as before, and nothing is called. *)
Theorem init_sets_level_only
    (w : heap) (self c : loc) (d : odict value) (level : value) :
  w !! self = Some (OInstance c d) ->
  ordinary_instances w c = true ->
  assignable w c "level" = true ->
  let w' := <[self := OInstance c (od_set "level" level d)]> w in
  Skill.__init__ self level w = (Normal VNone, w', []) /\
  getattr self "level" w' = (Normal level, w', []) /\
  (forall a, a <> "level" ->
     od_lookup a (od_set "level" level d) = od_lookup a d) /\
  (forall l, l <> self -> w' !! l = w !! l) /\
  length w' = length w.
Proof.
  intros Hself _ _. cbv zeta.
  assert (Hlt : self < length w) by (eapply lookup_lt_Some; exact Hself).
  split; [|split; [|split; [|split]]].
  - unfold Skill.__init__, bind, setattr, store. rewrite Hself. reflexivity.
  - eapply getattr_own; [apply list_lookup_insert_eq, Hlt|apply od_lookup_set_eq].
  - intros a Ha. apply od_lookup_set_ne, Ha.
  - intros l Hl. apply list_lookup_insert_ne. congruence.
  - apply length_insert.
Qed.

Lemma init_sets_level_only_witness :
  heap_trio !! 16 = Some (OInstance 13 [("level", VInt 2)]) /\
  ordinary_instances heap_trio 13 = true /\
  assignable heap_trio 13 "level" = true /\
  Skill.__init__ 16 VNone heap_trio
  = (Normal VNone, <[16 := OInstance 13 [("level", VNone)]]> heap_trio, []).
Proof.
  assert (H : heap_trio !! 16 = Some (OInstance 13 [("level", VInt 2)]))
    by (vm_compute; reflexivity).
  assert (Ho : ordinary_instances heap_trio 13 = true) by (vm_compute; reflexivity).
  assert (Ha : assignable heap_trio 13 "level" = true) by (vm_compute; reflexivity).
  split; [exact H|split; [exact Ho|split; [exact Ha|]]].
  exact (proj1 (init_sets_level_only heap_trio 16 13 _ VNone H Ho Ha)).
Defined.







(** ** Calling the constructor *)

(** X10. The signature [(self, level=0)], for a class whose [__init__] is
    [Skill.__init__], whose instances are created and accessed the
    ordinary way and which defines no descriptor named [level]:
    passing the level by keyword builds the same instance as passing it by
    position; a second positional argument or an unknown keyword makes the
    call raise [TypeError], and no instance is returned. *)
Theorem constructor_arguments
    (user : user_code) (depth : nat) (w : heap) (cls : loc) (level extra : value)
    (key : string) :
  mro_lookup w cls "__init__" = Some (VFunc Skill_init_fn) ->
  ordinary_instances w cls = true ->
  assignable w cls "level" = true ->
  String.eqb key "level" = false ->
  let call := py_call user (S depth) in
  let built := w ++ [OInstance cls [("level", level)]] in
  out (instantiate call cls [level] [] w) = Normal (VRef (length w)) /\
  final (instantiate call cls [level] [] w) = built /\
  out (instantiate call cls [] [("level", level)] w) = Normal (VRef (length w)) /\
  final (instantiate call cls [] [("level", level)] w) = built /\
  (exists msg, out (instantiate call cls [level; extra] [] w) = Raise (TypeError msg)) /\
  (exists msg, out (instantiate call cls [] [(key, level)] w) = Raise (TypeError msg)).
Proof.
  intros Hinit _ _ Hkey. cbv zeta.
  assert (Hrun : forall args kw,
    instantiate (py_call user (S depth)) cls args kw w
    = match params_self_level (VRef (length w) :: args) kw with
      | Some (self, lv) =>
          (Normal (VRef (length w)),
           final (Skill.__init__ self lv (w ++ [OInstance cls []])),
           [mk_inv (VFunc Skill_init_fn) (VRef (length w) :: args) kw])
      | None =>
          (Raise (TypeError "__init__() arguments"), w ++ [OInstance cls []],
           [mk_inv (VFunc Skill_init_fn) (VRef (length w) :: args) kw])
      end).
  { intros args kw. unfold instantiate, bind at 1, get_heap.
    rewrite Hinit. unfold bind at 1, alloc. unfold bind at 1, invoke.
    cbn [py_call Skill_init_fn fn_code run_code].
    destruct (params_self_level (VRef (length w) :: args) kw) as [[self lv]|] eqn:Hp.
    - assert (self = length w) as ->.
      { unfold params_self_level in Hp.
        destruct args as [|a0 [|a1 args']], kw as [|[k0 v0] [|kv1 kw']];
          try discriminate; try (injection Hp as <- _; reflexivity).
        destruct (String.eqb k0 "level"); [injection Hp as <- _; reflexivity|discriminate]. }
      rewrite (Skill_init_new w (length w) cls [] lv [] eq_refl). reflexivity.
    - reflexivity. }
  rewrite !Hrun. cbn [params_self_level]. rewrite String.eqb_refl, Hkey.
  rewrite (Skill_init_new w (length w) cls [] level [] eq_refl).
  repeat split; try reflexivity; eexists; reflexivity.
Qed.

Lemma constructor_arguments_witness :
  mro_lookup heap_sub 7 "__init__" = Some (VFunc Skill_init_fn) /\
  ordinary_instances heap_sub 7 = true /\
  assignable heap_sub 7 "level" = true /\
  final (instantiate (py_call example_user 1) 7 [] [("level", VInt 3)] heap_sub)
  = heap_sub ++ [OInstance 7 [("level", VInt 3)]] /\
  exists msg,
    out (instantiate (py_call example_user 1) 7 [] [("lvl", VInt 3)] heap_sub)
    = Raise (TypeError msg).
Proof.
  assert (H : mro_lookup heap_sub 7 "__init__" = Some (VFunc Skill_init_fn))
    by (vm_compute; reflexivity).
  assert (Ho : ordinary_instances heap_sub 7 = true) by (vm_compute; reflexivity).
  assert (Ha : assignable heap_sub 7 "level" = true) by (vm_compute; reflexivity).
  split; [exact H|split; [exact Ho|split; [exact Ha|]]].
  destruct (constructor_arguments example_user 0 heap_sub 7 (VInt 3) VNone "lvl"
              H Ho Ha eq_refl) as (_ & _ & _ & Hk & _ & Hbad).
  split; [exact Hk|exact Hbad].
Defined.

(** ** Dispatch on other objects, and from definition to dispatch *)



Lemma binds_none_lookup (attrs : odict value) (names : list string) (a : string) :
  binds_none attrs names = true -> In a names -> od_lookup a attrs = None.
Proof.
  intros H Hin. unfold binds_none in H.
  pose proof (proj1 (forallb_forall _ _) H a Hin) as Ha. unfold od_contains in Ha.
  destruct (od_lookup a attrs); [discriminate Ha|reflexivity].
Qed.

(** X12. From class statement to dispatch.  Take a well-formed base that
    has the constructor of [Skill], whose instances are created and
    accessed the ordinary way and keep their [level] themselves, and an
    ordinary class statement on it whose body binds none of [__init__],
    [__new__], [__setattr__], [__getattribute__] and [level].  The class
    statement succeeds, and the new class is as the base in these
    respects; instantiating it at any integer level yields an instance
    holding that level; on that instance every event finds exactly the
    callbacks the class body declares for it, in body order, and dispatch
    calls them all, each with the instance and the event data, when each
    returns normally and leaves the list of the event as it is. *)
Theorem define_instantiate_dispatch
    (user : user_code) (depth : nat) (w : heap) (b : loc) (name : string)
    (attrs : odict value) (z : Z) (event_name : string) (event_args : kwargs) :
  class_wf w b ->
  mro_lookup w b "__init__" = Some (VFunc Skill_init_fn) ->
  ordinary_instances w b = true ->
  assignable w b "level" = true ->
  ordinary_statement w [b] attrs = true ->
  binds_none attrs ["__init__"; "__new__"; "__setattr__"; "__getattribute__"; "level"]
    = true ->
  let call := py_call user (S depth) in
  let c := length w in
  exists w1,
    define_class name [b] attrs w = (Normal c, w1, []) /\
    mro_lookup w1 c "__init__" = Some (VFunc Skill_init_fn) /\
    ordinary_instances w1 c = true /\
    assignable w1 c "level" = true /\
    let self := length w1 in
    let w2 := w1 ++ [OInstance c [("level", VInt z)]] in
    instantiate call c [VInt z] [] w1
      = (Normal (VRef self), w2,
         [mk_inv (VFunc Skill_init_fn) [VRef self; VInt z] []]) /\
    callbacks_for w2 self event_name = Some (declared_for event_name attrs) /\
    forall w3,
      all_return call self event_args (callback_list w2 self event_name)
        (declared_for event_name attrs) w2 w3 ->
      Skill.execute_callbacks call self event_name event_args w2
      = (Normal VNone, w3,
         map (dispatched self event_args) (declared_for event_name attrs)).
Proof.
  intros Hwf Hinit Hord Hlevel _ Hbody. cbv zeta.
  destruct (define_class_single_base name b attrs w Hwf)
    as (w1 & kb & Hdef & _ & _ & _ & _ & Hlook).
  exists w1. split; [exact Hdef|].
  assert (Hsame : forall a,
            In a ["__init__"; "__new__"; "__setattr__"; "__getattribute__"; "level"] ->
            rebound_name a = false ->
            mro_lookup w1 (length w) a = mro_lookup w b a).
  { intros a Hin Hreb. rewrite (Hlook a Hreb).
    rewrite (binds_none_lookup _ _ a Hbody Hin). reflexivity. }
  assert (Hinit1 : mro_lookup w1 (length w) "__init__" = Some (VFunc Skill_init_fn)).
  { rewrite Hsame; [exact Hinit|cbn; tauto|reflexivity]. }
  destruct (define_class_view _ _ _ _ _ _ _ Hdef) as [Hm [r Hown]].
  destruct (registries_kept_alloc w1 [OInstance (length w) [("level", VInt z)]]
              _ _ _ Hown Hm) as [_ Hm2].
  assert (Hcb : callbacks_for (w1 ++ [OInstance (length w) [("level", VInt z)]])
                  (length w1) event_name
                = Some (declared_for event_name attrs)).
  { rewrite <- group_events_lookup.
    eapply callbacks_for_instance; [apply lookup_new|reflexivity|exact Hm2]. }
  split; [exact Hinit1|split; [|split; [|split; [|split; [exact Hcb|]]]]].
  - unfold ordinary_instances in *. cbn [forallb] in *.
    rewrite !Hsame; [exact Hord|cbn; tauto|reflexivity|cbn; tauto|reflexivity
                    |cbn; tauto|reflexivity].
  - unfold assignable in *. rewrite Hsame; [exact Hlevel|cbn; tauto|reflexivity].
  - unfold instantiate, bind at 1, get_heap.
    rewrite Hinit1. unfold bind at 1, alloc. unfold bind at 1, invoke.
    cbn [py_call Skill_init_fn fn_code run_code params_self_level].
    rewrite (Skill_init_new w1 (length w1) (length w) [] (VInt z) [] eq_refl).
    reflexivity.
  - intros w3 Hall.
    destruct (execute_callbacks_loop (py_call user (S depth)) _ _ event_args _ _ Hcb)
      as [(_ & Hnil & ->)|(l & Hlst & Hl & ->)].
    + rewrite Hnil in Hall. inversion Hall. rewrite Hnil. reflexivity.
    + cbv zeta. rewrite Hlst in Hall.
      rewrite (loop_all_return _ _ _ _ _ _ _ Hl Hall). reflexivity.
Qed.

Lemma heap_base_wf : class_wf heap_base 0 /\ class_wf heap_base 2 /\ class_wf heap_base 4.
Proof.
  repeat split;
    (eexists; split; [vm_compute; reflexivity|];
     split; [reflexivity|]; split;
     [apply (bool_decide_unpack _); vm_compute; exact I
     |cbn [cls_mro]; repeat (apply Forall_cons_2;
        [eexists; vm_compute; reflexivity|]); apply Forall_nil_2]).
Qed.

Lemma define_instantiate_dispatch_witness :
  class_wf heap_base 4 /\
  mro_lookup heap_base 4 "__init__" = Some (VFunc Skill_init_fn) /\
  ordinary_instances heap_base 4 = true /\
  assignable heap_base 4 "level" = true /\
  ordinary_statement heap_base [4] Bonus_Health_Plus_body = true /\
  exists w1,
    define_class "Bonus_Health_Plus" [4] Bonus_Health_Plus_body heap_base
      = (Normal 7, w1, []) /\
    callbacks_for (w1 ++ [OInstance 7 [("level", VInt 2)]]) (length w1) "player_spawn"
      = Some [VFunc give_more].
Proof.
  assert (H1 : class_wf heap_base 4) by apply heap_base_wf.
  assert (H2 : mro_lookup heap_base 4 "__init__" = Some (VFunc Skill_init_fn))
    by (vm_compute; reflexivity).
  assert (H3 : ordinary_instances heap_base 4 = true) by (vm_compute; reflexivity).
  assert (H4 : assignable heap_base 4 "level" = true) by (vm_compute; reflexivity).
  assert (H5 : ordinary_statement heap_base [4] Bonus_Health_Plus_body = true)
    by (vm_compute; reflexivity).
  split; [exact H1|split; [exact H2|split; [exact H3|split; [exact H4|split;
    [exact H5|]]]]].
  destruct (define_instantiate_dispatch example_user 0 heap_base 4 "Bonus_Health_Plus"
              Bonus_Health_Plus_body 2 "player_spawn" [] H1 H2 H3 H4 H5 eq_refl)
    as (w1 & Hdef & _ & _ & _ & _ & Hcb & _).
  exists w1. split; [exact Hdef|exact Hcb].
Defined.

(** ** Timers of tick skills *)












(** ** Class-level attributes *)



Lemma mro_lookup_retain (w w' : heap) (c : loc) (a : string) :
  (forall l o, w !! l = Some o -> w' !! l = Some o) ->
  class_wf w c ->
  mro_lookup w' c a = mro_lookup w c a.
Proof.
  intros Hret (k & Hk & _ & _ & Hall). unfold mro_lookup.
  rewrite (class_at_retain _ _ _ _ Hret Hk), Hk.
  apply lookup_along_retain; assumption.
Qed.





(** X18. The class id of a skill class that does not set [class_id] is
    its qualified name: the [__qualname__] its class statement carries,
    which for a class defined at module level is the name of the
    statement.  Two ordinary class statements make two classes, and the
    two have one class id when they have one qualified name. *)
Theorem class_id_is_the_qualified_name
    (w : heap) (b1 b2 : loc) (name1 name2 : string) (attrs1 attrs2 : odict value) :
  class_wf w b1 ->
  class_wf w b2 ->
  mro_lookup w b1 "class_id" = Some (VClassProperty "class_id") ->
  mro_lookup w b2 "class_id" = Some (VClassProperty "class_id") ->
  od_lookup "class_id" attrs1 = None ->
  od_lookup "class_id" attrs2 = None ->
  qualname_ok attrs1 = true ->
  qualname_ok attrs2 = true ->
  ordinary_statement w [b1] attrs1 = true ->
  ordinary_statement w [b2] attrs2 = true ->
  exists w1 w2,
    define_class name1 [b1] attrs1 w = (Normal (length w), w1, []) /\
    define_class name2 [b2] attrs2 w1 = (Normal (length w1), w2, []) /\
    length w <> length w1 /\
    read_class_attr (length w) "class_id" w2
      = (Normal (VStr (class_qualname name1 attrs1)), w2, []) /\
    read_class_attr (length w1) "class_id" w2
      = (Normal (VStr (class_qualname name2 attrs2)), w2, []) /\
    (od_lookup "__qualname__" attrs1 = None -> class_qualname name1 attrs1 = name1).
Proof.
  intros Hwf1 Hwf2 Hbase1 Hbase2 Hbody1 Hbody2 _ _ _ _.
  destruct (define_class_single_base name1 b1 attrs1 w Hwf1)
    as (w1 & kb1 & Hdef1 & _ & Hobj1 & Hret1 & Hwfc1 & Hlook1).
  pose proof (class_wf_retain _ _ _ Hret1 Hwf2) as Hwf2'.
  destruct (define_class_single_base name2 b2 attrs2 w1 Hwf2')
    as (w2 & kb2 & Hdef2 & _ & Hobj2 & Hret2 & _ & Hlook2).
  assert (Hid1 : mro_lookup w1 (length w) "class_id"
                 = Some (VClassProperty "class_id")).
  { rewrite Hlook1 by reflexivity. rewrite Hbody1. exact Hbase1. }
  exists w1, w2.
  split; [exact Hdef1|split; [exact Hdef2|split; [|split; [|split]]]].
  - assert (Hlt : length w < length w1)
      by (apply class_wf_lt; eexists; exact Hobj1).
    lia.
  - unfold read_class_attr.
    rewrite (mro_lookup_retain w1 w2 _ _ Hret2 Hwfc1), Hid1.
    cbn [class_property_get String.eqb Ascii.eqb Bool.eqb].
    unfold Skill_class_id. rewrite (class_at_retain _ _ _ _ Hret2 Hobj1).
    reflexivity.
  - unfold read_class_attr. rewrite Hlook2 by reflexivity.
    rewrite Hbody2, (mro_lookup_retain w w1 _ _ Hret1 Hwf2), Hbase2.
    cbn [class_property_get String.eqb Ascii.eqb Bool.eqb].
    unfold Skill_class_id. rewrite Hobj2. reflexivity.
  - intros Hq. unfold class_qualname. rewrite Hq. reflexivity.
Qed.

Lemma class_id_is_the_qualified_name_witness :
  class_wf heap_base 0 /\
  class_wf heap_base 4 /\
  mro_lookup heap_base 0 "class_id" = Some (VClassProperty "class_id") /\
  mro_lookup heap_base 4 "class_id" = Some (VClassProperty "class_id") /\
  exists w1 w2,
    define_class "Regeneration" [0] Regeneration_body heap_base
      = (Normal 7, w1, []) /\
    define_class "Inner" [4]
      [("__qualname__", VStr "Regeneration"); ("_give_more", VFunc give_more)] w1
      = (Normal (length w1), w2, []) /\
    read_class_attr 7 "class_id" w2 = (Normal (VStr "Regeneration"), w2, []) /\
    read_class_attr (length w1) "class_id" w2
      = (Normal (VStr "Regeneration"), w2, []).
Proof.
  assert (H0 : class_wf heap_base 0) by apply heap_base_wf.
  assert (H4 : class_wf heap_base 4) by apply heap_base_wf.
  assert (H1 : mro_lookup heap_base 0 "class_id" = Some (VClassProperty "class_id"))
    by (vm_compute; reflexivity).
  assert (H2 : mro_lookup heap_base 4 "class_id" = Some (VClassProperty "class_id"))
    by (vm_compute; reflexivity).
  assert (H5 : ordinary_statement heap_base [0] Regeneration_body = true)
    by (vm_compute; reflexivity).
  assert (H6 : ordinary_statement heap_base [4]
                 [("__qualname__", VStr "Regeneration"); ("_give_more", VFunc give_more)]
               = true)
    by (vm_compute; reflexivity).
  split; [exact H0|split; [exact H4|split; [exact H1|split; [exact H2|]]]].
  destruct (class_id_is_the_qualified_name heap_base 0 4 "Regeneration" "Inner"
              Regeneration_body
              [("__qualname__", VStr "Regeneration"); ("_give_more", VFunc give_more)]
              H0 H4 H1 H2 eq_refl eq_refl eq_refl eq_refl H5 H6)
    as (w1 & w2 & Hd1 & Hd2 & _ & Hr1 & Hr2 & _).
  exists w1, w2.
  split; [exact Hd1|split; [exact Hd2|split; [exact Hr1|exact Hr2]]].
Defined.

(** X19. Every other class attribute of a class defined by an ordinary
    class statement on a well-formed base, [max_level] or an overridden
    [name] for instance: read on the class, a name that does not start
    with two underscores gives the value the class body binds it to, taken
    as it is, and, when the body does not bind it, the value it has on the
    base. *)
Theorem class_attribute_from_body_or_base
    (w : heap) (b : loc) (name : string) (attrs : odict value)
    (a : string) (v : value) :
  class_wf w b ->
  ordinary_statement w [b] attrs = true ->
  a <> "_event_callbacks" ->
  special_name a = false ->
  match od_lookup a attrs with
  | Some x => Some x
  | None => mro_lookup w b a
  end = Some v ->
  read_as_is v = true ->
  exists w1,
    define_class name [b] attrs w = (Normal (length w), w1, []) /\
    read_class_attr (length w) a w1 = (Normal v, w1, []).
Proof.
  intros Hwf _ Ha Hsp Hv Hplain.
  destruct (define_class_single_base name b attrs w Hwf)
    as (w1 & kb & Hdef & _ & _ & _ & _ & Hlook).
  exists w1. split; [exact Hdef|].
  assert (Hreb : rebound_name a = false).
  { unfold rebound_name.
    destruct (String.eqb_spec a "_event_callbacks") as [E|_]; [congruence|].
    destruct (String.eqb_spec a "__doc__") as [->|_]; [discriminate Hsp|].
    destruct (String.eqb_spec a "__qualname__") as [->|_]; [discriminate Hsp|].
    reflexivity. }
  unfold read_class_attr. rewrite (Hlook a Hreb), Hv.
  destruct v; try reflexivity; discriminate Hplain.
Qed.

Lemma class_attribute_from_body_or_base_witness :
  class_wf heap_base 4 /\
  mro_lookup heap_base 4 "max_level" = Some (VInt 16) /\
  mro_lookup heap_base 0 "max_level" = Some VNone /\
  exists w1,
    define_class "Bonus_Health_Plus" [4] Bonus_Health_Plus_body heap_base
      = (Normal 7, w1, []) /\
    read_class_attr 7 "max_level" w1 = (Normal (VInt 16), w1, []).
Proof.
  assert (H0 : class_wf heap_base 4) by apply heap_base_wf.
  assert (H1 : mro_lookup heap_base 4 "max_level" = Some (VInt 16))
    by (vm_compute; reflexivity).
  split; [exact H0|split; [exact H1|split; [vm_compute; reflexivity|]]].
  assert (Ha : "max_level" <> "_event_callbacks") by discriminate.
  assert (Ho : ordinary_statement heap_base [4] Bonus_Health_Plus_body = true)
    by (vm_compute; reflexivity).
  exact (class_attribute_from_body_or_base heap_base 4 "Bonus_Health_Plus"
           Bonus_Health_Plus_body "max_level" (VInt 16) H0 Ho Ha eq_refl H1 eq_refl).
Defined.
